(** * VocalCoach Pro: session coordinator and remote coaching client

    A shallow embedding of [App.tsx] (the session / live-audio coordinator)
    and [geminiService.ts] (the remote coaching client), with the
    properties of the specification stated and proved over it.

    Conventions of the embedding.
    - A JavaScript string is a Rocq [string] read as its sequence of code
      units; the embedding covers the code units below 256 (Latin-1), on
      which [toLowerCase], [trim] and [includes] are modelled exactly.
    - [Date.now()] values are integers (milliseconds), in [Z].
    - Times of the output [AudioContext] ([currentTime], a buffer's
      [duration], the [nextStartTime] cursor) are kept in sample frames of
      the 24 kHz output context, in [Z]: both are whole numbers of frames
      divided by the sample rate.
    - React state and refs are one record, threaded explicitly; calls to
      the platform (alerts, console, audio nodes, remote requests) are
      appended to a trace kept in that record.
    - An [await] is a cut: the part of an async function before it and the
      continuation after it are separate functions, the continuation
      taking the outcome of the awaited promise.
    - A functional update [setX(prev => ...)] is run by React when the
      callback that queued it has returned, the updates of one callback
      in the order of their calls, and before the next callback runs; the
      embedding applies it in place, and what it reads of a ref is what
      the callback leaves there.
    - The callbacks of the live session run one message at a time (the
      decoding awaited in the audio branch settles before the next
      message is delivered). *)

From Stdlib Require Import ZArith NArith String Ascii List Bool Lia.
From stdpp Require Import base tactics option list gmap sets.
Import ListNotations.

Local Open Scope string_scope.

(* stdpp seals [String.append] against [simpl]; the string lemmas below
   compute with it. *)
#[local] Arguments String.append !_ _ / : simpl nomatch.

(** ** JavaScript string primitives used by the sources *)

Module Js.

(** Truthiness of a string: every string but the empty one. *)
Definition truthy (s : string) : bool :=
  match s with
  | EmptyString => false
  | String _ _ => true
  end.

(** [a || b] on strings. *)
Definition or_else (a b : string) : string := if truthy a then a else b.

(** [String.prototype.toLowerCase] on one code unit below 256: the
    letters A-Z and the Latin-1 capitals U+00C0-U+00DE (U+00D7, the
    multiplication sign, apart) move up by 32. *)
Definition lower_unit (c : ascii) : ascii :=
  let n := N_of_ascii c in
  if ((65 <=? n) && (n <=? 90)
      || (192 <=? n) && (n <=? 222) && negb (n =? 215))%N
  then ascii_of_N (n + 32)
  else c.

Fixpoint toLowerCase (s : string) : string :=
  match s with
  | EmptyString => EmptyString
  | String c r => String (lower_unit c) (toLowerCase r)
  end.

(** [s.startsWith(k)]. *)
Fixpoint startsWith (s k : string) {struct k} : bool :=
  match k, s with
  | EmptyString, _ => true
  | String _ _, EmptyString => false
  | String a k', String b s' => Ascii.eqb a b && startsWith s' k'
  end.

(** [s.includes(k)]: [k] occurs in [s] at some position. *)
Fixpoint includes (s k : string) : bool :=
  startsWith s k ||
  match s with
  | EmptyString => false
  | String _ s' => includes s' k
  end.

(** White space and line terminators removed by [trim], below 256:
    TAB, LF, VT, FF, CR, SPACE and NBSP. *)
Definition is_space (c : ascii) : bool :=
  let n := N_of_ascii c in
  ((9 <=? n) && (n <=? 13) || (n =? 32) || (n =? 160))%N.

Fixpoint trimStart (s : string) : string :=
  match s with
  | EmptyString => EmptyString
  | String c r => if is_space c then trimStart r else s
  end.

(** [trimEnd], by recursion from the right end. *)
Fixpoint trimEnd (s : string) : string :=
  match s with
  | EmptyString => EmptyString
  | String c r =>
      match trimEnd r with
      | EmptyString => if is_space c then EmptyString else String c EmptyString
      | r' => String c r'
      end
  end.

Definition trim (s : string) : string := trimEnd (trimStart s).

(** Optional chaining [o?.f]: [undefined] is passed on. *)
Definition chain {A B} (o : option A) (f : A -> option B) : option B :=
match o with
| Some a => f a
| None => None
end.

(** [xs?.[0]] on an array that is there: its first element, if any. *)
Definition first {A} (xs : list A) : option A :=
match xs with
| [] => None
| x :: _ => Some x
end.

(** [xs.some(p)]. *)
Definition some {A} (p : A -> bool) (xs : list A) : bool := existsb p xs.

End Js.

Notation "o ?> f" := (Js.chain o f) (at level 50, left associativity).

(** ** [types.ts] *)

Inductive Role := user | model.

Record Message := {
  role : Role;
  content : string;
  senderName : option string;
  timestamp : Z
}.

Inductive AppState := CHATTING | ASSESSING | REPORT.

#[global] Instance Role_eq_dec : EqDecision Role.
Proof. solve_decision. Defined.

#[global] Instance AppState_eq_dec : EqDecision AppState.
Proof. solve_decision. Defined.

(** ** Thrown values and promise outcomes *)

Inductive Exn :=
| Error (message : string)            (* [new Error(message)] *)
| TypeError (message : string)        (* property read on [null] *)
| RemoteServiceError (detail : string). (* transport or quota failure of the SDK *)

Inductive Outcome (A : Type) :=
| Resolved (a : A)
| Rejected (e : Exn).
Arguments Resolved {A} a.
Arguments Rejected {A} e.

(** ** [JSON.parse]

    The platform's parser, as ECMA-404 fixes it: a lexer run as an
    automaton over the code units and a pushdown parser over the tokens,
    both total.  Numbers keep their lexeme; strings are decoded to code
    units (a u-escape of four hex digits may lie above 255, so values
    hold [list N]). *)

Module Json.

Definition units (s : string) : list N := map N_of_ascii (list_ascii_of_string s).

#[local] Set Warnings "-register-all".
Inductive Value :=
| JNull
| JBool (b : bool)
| JNumber (lexeme : list N)
| JString (s : list N)
| JArray (items : list Value)
| JObject (fields : list (list N * Value)).

Inductive Token :=
| TLBrace | TRBrace | TLBracket | TRBracket | TColon | TComma
| TString (s : list N)
| TNumber (lexeme : list N)
| TTrue | TFalse | TNull.

(** States of the number automaton: an optional minus sign; then a
    lone 0, or a digit 1-9 and any digits; then optionally a dot and
    one or more digits; then optionally e or E, an optional sign and one
    or more digits. *)
Inductive NumState :=
| NMinus | NZero | NInt | NDot | NFrac | NExp | NExpSign | NExpDigits.

Inductive LexMode :=
| LDefault
| LString (acc : list N)
| LEscape (acc : list N)
| LUnicode (acc : list N) (value : N) (seen : nat)
| LNumber (st : NumState) (acc : list N)
| LWord (rest : list N) (tok : Token).

Local Open Scope N_scope.

Definition is_ws (c : N) : bool :=
  (c =? 32) || (c =? 9) || (c =? 10) || (c =? 13).
Definition is_digit (c : N) : bool := (48 <=? c) && (c <=? 57).
Definition is_digit19 (c : N) : bool := (49 <=? c) && (c <=? 57).
Definition is_e (c : N) : bool := (c =? 101) || (c =? 69).
Definition is_sign (c : N) : bool := (c =? 43) || (c =? 45).

Definition hex_value (c : N) : option N :=
  if is_digit c then Some (c - 48)
  else if (97 <=? c) && (c <=? 102) then Some (c - 87)
  else if (65 <=? c) && (c <=? 70) then Some (c - 55)
  else None.

Definition num_step (st : NumState) (c : N) : option NumState :=
  match st with
  | NMinus => if c =? 48 then Some NZero else if is_digit19 c then Some NInt else None
  | NZero => if c =? 46 then Some NDot else if is_e c then Some NExp else None
  | NInt => if is_digit c then Some NInt
            else if c =? 46 then Some NDot else if is_e c then Some NExp else None
  | NDot => if is_digit c then Some NFrac else None
  | NFrac => if is_digit c then Some NFrac else if is_e c then Some NExp else None
  | NExp => if is_sign c then Some NExpSign else if is_digit c then Some NExpDigits else None
  | NExpSign => if is_digit c then Some NExpDigits else None
  | NExpDigits => if is_digit c then Some NExpDigits else None
  end.

Definition num_accepting (st : NumState) : bool :=
  match st with
  | NZero | NInt | NFrac | NExpDigits => true
  | _ => false
  end.

(** One code unit read between tokens. *)
Definition lex_default (c : N) : option (LexMode * list Token) :=
  if is_ws c then Some (LDefault, [])
  else if c =? 123 then Some (LDefault, [TLBrace])
  else if c =? 125 then Some (LDefault, [TRBrace])
  else if c =? 91 then Some (LDefault, [TLBracket])
  else if c =? 93 then Some (LDefault, [TRBracket])
  else if c =? 58 then Some (LDefault, [TColon])
  else if c =? 44 then Some (LDefault, [TComma])
  else if c =? 34 then Some (LString [], [])
  else if c =? 45 then Some (LNumber NMinus [c], [])
  else if c =? 48 then Some (LNumber NZero [c], [])
  else if is_digit19 c then Some (LNumber NInt [c], [])
  else if c =? 116 then Some (LWord (units "rue") TTrue, [])
  else if c =? 102 then Some (LWord (units "alse") TFalse, [])
  else if c =? 110 then Some (LWord (units "ull") TNull, [])
  else None.

(** The one-letter escapes: quote, backslash, slash, b, f, n, r, t. *)
Definition unescape (c : N) : option N :=
  if c =? 34 then Some 34
  else if c =? 92 then Some 92
  else if c =? 47 then Some 47
  else if c =? 98 then Some 8
  else if c =? 102 then Some 12
  else if c =? 110 then Some 10
  else if c =? 114 then Some 13
  else if c =? 116 then Some 9
  else None.

Definition lex_step (m : LexMode) (c : N) : option (LexMode * list Token) :=
  match m with
  | LDefault => lex_default c
  | LString acc =>
      if c =? 34 then Some (LDefault, [TString (rev acc)])
      else if c =? 92 then Some (LEscape acc, [])
      else if c <? 32 then None
      else Some (LString (c :: acc), [])
  | LEscape acc =>
      if c =? 117 then Some (LUnicode acc 0 0%nat, [])
      else match unescape c with
           | Some u => Some (LString (u :: acc), [])
           | None => None
           end
  | LUnicode acc v seen =>
      match hex_value c with
      | Some d =>
          if Nat.eqb seen 3 then Some (LString ((v * 16 + d) :: acc), [])
          else Some (LUnicode acc (v * 16 + d) (S seen), [])
      | None => None
      end
  | LNumber st acc =>
      match num_step st c with
      | Some st' => Some (LNumber st' (c :: acc), [])
      | None =>
          if num_accepting st then
            match lex_default c with
            | Some (m', toks) => Some (m', TNumber (rev acc) :: toks)
            | None => None
            end
          else None
      end
  | LWord rest tok =>
      match rest with
      | [] => None
      | c' :: rest' =>
          if c =? c' then
            match rest' with
            | [] => Some (LDefault, [tok])
            | _ => Some (LWord rest' tok, [])
            end
          else None
      end
  end.

Definition lex_end (m : LexMode) : option (list Token) :=
  match m with
  | LDefault => Some []
  | LNumber st acc => if num_accepting st then Some [TNumber (rev acc)] else None
  | _ => None
  end.

Fixpoint lex_from (m : LexMode) (s : list N) : option (list Token) :=
  match s with
  | [] => lex_end m
  | c :: r =>
      match lex_step m c with
      | Some (m', toks) =>
          match lex_from m' r with
          | Some more => Some (toks ++ more)%list
          | None => None
          end
      | None => None
      end
  end.

Definition lex (s : list N) : option (list Token) := lex_from LDefault s.

(** The parser: a stack of open containers and what may come next. *)
Inductive Frame :=
| FArray (items : list Value)
| FObject (fields : list (list N * Value)) (pending : option (list N)).

Inductive Expect :=
| EValue            (* a value must follow *)
| EValueOrClose     (* just after [ *)
| EKeyOrClose       (* just after { *)
| EKey              (* after a comma of an object *)
| EColon (key : list N)
| ECommaOrClose     (* after a value inside a container *)
| EEnd (v : Value). (* the text's value is complete *)

Definition deliver (v : Value) (stack : list Frame) : option (list Frame * Expect) :=
  match stack with
  | [] => Some ([], EEnd v)
  | FArray items :: st => Some (FArray (v :: items) :: st, ECommaOrClose)
  | FObject fields (Some k) :: st =>
      Some (FObject ((k, v) :: fields) None :: st, ECommaOrClose)
  | FObject _ None :: _ => None
  end.

Definition close_array (stack : list Frame) : option (list Frame * Expect) :=
  match stack with
  | FArray items :: st => deliver (JArray (rev items)) st
  | _ => None
  end.

Definition close_object (stack : list Frame) : option (list Frame * Expect) :=
  match stack with
  | FObject fields None :: st => deliver (JObject (rev fields)) st
  | _ => None
  end.

Definition open_value (t : Token) (stack : list Frame) : option (list Frame * Expect) :=
  match t with
  | TLBracket => Some (FArray [] :: stack, EValueOrClose)
  | TLBrace => Some (FObject [] None :: stack, EKeyOrClose)
  | TString s => deliver (JString s) stack
  | TNumber n => deliver (JNumber n) stack
  | TTrue => deliver (JBool true) stack
  | TFalse => deliver (JBool false) stack
  | TNull => deliver JNull stack
  | _ => None
  end.

Definition parse_step (stack : list Frame) (e : Expect) (t : Token)
  : option (list Frame * Expect) :=
  match e, t with
  | EValue, _ => open_value t stack
  | EValueOrClose, TRBracket => close_array stack
  | EValueOrClose, _ => open_value t stack
  | EKeyOrClose, TRBrace => close_object stack
  | EKeyOrClose, TString k => Some (stack, EColon k)
  | EKey, TString k => Some (stack, EColon k)
  | EColon k, TColon =>
      match stack with
      | FObject fields None :: st => Some (FObject fields (Some k) :: st, EValue)
      | _ => None
      end
  | ECommaOrClose, TComma =>
      match stack with
      | FArray _ :: _ => Some (stack, EValue)
      | FObject _ _ :: _ => Some (stack, EKey)
      | [] => None
      end
  | ECommaOrClose, TRBracket => close_array stack
  | ECommaOrClose, TRBrace => close_object stack
  | _, _ => None
  end.

Fixpoint parse_from (stack : list Frame) (e : Expect) (ts : list Token) : option Value :=
  match ts with
  | [] => match e with EEnd v => Some v | _ => None end
  | t :: r =>
      match parse_step stack e t with
      | Some (stack', e') => parse_from stack' e' r
      | None => None
      end
  end.

(** [JSON.parse(text)]: [None] is a thrown [SyntaxError]. *)
Definition parse (text : string) : option Value :=
  match lex (units text) with
  | Some ts => parse_from [] EValue ts
  | None => None
  end.

(** Own property of an object value; of two members with one name the
    later one is the value [JSON.parse] keeps. *)
Fixpoint lookup_field (k : list N) (fields : list (list N * Value)) : option Value :=
  match fields with
  | [] => None
  | (k', v) :: r =>
      match lookup_field k r with
      | Some w => Some w
      | None => if decide (k = k') then Some v else None
      end
  end.

End Json.

(** ** [geminiService.ts]: the remote coaching client *)

Module GeminiService.

(** The line feed that joins the lines of the session tape. *)
Definition LF : string := String (ascii_of_N 10) EmptyString.

Fixpoint join (sep : string) (xs : list string) : string :=
match xs with
| [] => ""
| [x] => x
| x :: r => x ++ sep ++ join sep r
end.

(** [history.map(m => `${...}: ${m.content}`).join('\n')]. *)
Definition historyText (history : list Message) : string :=
join LF (map (fun m => (match role m with user => "User" | model => "VocalCoach" end)
                         ++ ": " ++ content m) history).

(** The part of a [GenerateContentResponse] the client reads. *)
Record Blob := { data : option string }.
Record Part := { inlineData : option Blob }.
Record Content := { parts : option (list Part) }.
Record Candidate := { content : option Content }.
Record GenerateContentResponse := {
  text : option string;
  candidates : option (list Candidate)
}.

(** A request to [ai.models.generateContent]: the model and the text
    interpolated into the prompt (the fixed wording of the prompt, the
    schema and the voice settings are constants of the call). *)
Record Request := {
  req_model : string;
  req_text : string
}.

(** What [getGeminiClient()] gives.  Each function calls it anew, as its
    first statement and before any [try] block: it gives the client [ai],
    seen here as what its [models.generateContent] does (any function from
    requests to settled promises), or, when [new GoogleGenAI(...)] throws,
    the thrown value. *)
Inductive Remote :=
| client (models : Request -> Outcome GenerateContentResponse)
| no_client (thrown : Exn).

(** [getGeminiClient().models.generateContent(request)], awaited.  A
    [Remote] applied to a request stands for it: a construction that throws
    and a call that rejects both end in a rejection. *)
Definition generateContent (remote : Remote) (request : Request)
  : Outcome GenerateContentResponse :=
match remote with
| client models => models request
| no_client thrown => Rejected thrown
end.

Coercion generateContent : Remote >-> Funclass.

Definition assessmentRequest (history : list Message) : Request :=
{| req_model := "gemini-3-pro-preview"; req_text := historyText history |}.

Definition speechRequest (t : string) : Request :=
{| req_model := "gemini-2.5-flash-preview-tts";
   req_text := "Say this report summary clearly in English: " ++ t |}.

(** [response.text || '{}']. *)
Definition text_or_empty_object (response : GenerateContentResponse) : string :=
match text response with
| Some t => Js.or_else t "{}"
| None => "{}"
end.

(** [generateAssessment]: the client is built and the remote call awaited
    outside the [try] block, so what either throws is passed on; inside, a
    [SyntaxError] of [JSON.parse] becomes
    [Error("Assessment synthesis failed.")] and any parsed value is
    returned as it is. *)
Definition generateAssessment (remote : Remote) (history : list Message)
  : Outcome Json.Value :=
match remote (assessmentRequest history) with
| Rejected e => Rejected e
| Resolved response =>
    match Json.parse (text_or_empty_object response) with
    | Some v => Resolved v
    | None => Rejected (Error "Assessment synthesis failed.")
    end
end.

(** [generateSpeech]: [const ai = getGeminiClient()] stands before the
    [try] block, so what the construction throws rejects the promise; the
    remote call is inside the block and its handler returns [undefined];
    [response.candidates?.[0]?.content?.parts?.[0]?.inlineData?.data]. *)
Definition generateSpeech (remote : Remote) (t : string) : Outcome (option string) :=
match remote with
| no_client thrown => Rejected thrown
| client models =>
    match models (speechRequest t) with
    | Rejected _ => Resolved None
    | Resolved response =>
        Resolved (candidates response ?> Js.first ?> content ?> parts ?> Js.first
                    ?> inlineData ?> data)
    end
end.

(** *** The [AssessmentReport] shape of [types.ts], as a check on values *)

Definition is_string (v : Json.Value) : bool :=
match v with Json.JString _ => true | _ => false end.

Definition is_one_of (names : list string) (v : Json.Value) : bool :=
match v with
| Json.JString s => existsb (fun n => bool_decide (s = Json.units n)) names
| _ => false
end.

Definition has_field (p : Json.Value -> bool) (k : string) (v : Json.Value) : bool :=
match v with
| Json.JObject fields =>
    match Json.lookup_field (Json.units k) fields with
    | Some w => p w
    | None => false
    end
| _ => false
end.

Definition is_array_of (p : Json.Value -> bool) (v : Json.Value) : bool :=
match v with Json.JArray items => forallb p items | _ => false end.

Definition is_ProficiencyLevel : Json.Value -> bool :=
is_one_of ["Novice"; "Beginner"; "Intermediate"; "Advanced"].

Definition is_CanDoExample (v : Json.Value) : bool :=
has_field is_string "quote" v && has_field is_string "translation" v.

Definition is_CannotYetDoExample (v : Json.Value) : bool :=
has_field is_string "quote" v && has_field is_string "correction" v.

Definition is_PrecisionAnalysis (v : Json.Value) : bool :=
has_field is_string "vocabulary" v && has_field is_string "grammar" v
&& has_field is_string "fluency" v.

Definition is_AssessmentReport (v : Json.Value) : bool :=
has_field is_ProficiencyLevel "overallScore" v
&& has_field is_string "functionalAbility" v
&& has_field is_PrecisionAnalysis "precisionAnalysis" v
&& has_field is_string "contentDepth" v
&& has_field (is_array_of is_CanDoExample) "canDo" v
&& has_field (is_array_of is_CannotYetDoExample) "cannotYetDo" v
&& has_field is_string "summary" v
&& has_field is_string "fullSessionTranscript" v.

(** The [required] list of the response schema. *)
Definition required : list string :=
["overallScore"; "functionalAbility"; "precisionAnalysis"; "summary";
 "fullSessionTranscript"].

Definition has_required_fields (v : Json.Value) : bool :=
forallb (fun k => has_field (fun _ => true) k v) required.

End GeminiService.

(** ** [App.tsx]: the session coordinator *)

(** The helpers of [audioUtils.ts] the coordinator calls: what
    [decodeAudioData(decode(base64), ctx, 24000, 1)] returns is read only
    through the buffer's [duration]. *)
Record AudioBuffer := { duration : Z }.

Class AudioUtils := { decodeAudioData : string -> AudioBuffer }.

(** [transcriptionBufferRef.current]: the partial texts of the live turn. *)
Record TranscriptionBuffer := {
  buf_user : string;
  buf_model : string
}.

(** Calls to the platform, in the order they are made. *)
Inductive Effect :=
| alert (message : string)
| console_error (label : string)
| recognition_stop
| chat_sendMessage (message : string)
| liveSession_close
| audioContextIn_close
| audioContextOut_close
| source_start (source : nat) (when : Z) (length : Z)
| source_stop (source : nat)
| call_generateAssessment (history : list Message)
| call_generateSpeech (summary : option Json.Value)
| readout_start (base64Audio : string).

(** The component's state ([useState]) and refs ([useRef]) that the
    modelled handlers read or write.  A ref to a platform object is kept
    as whether it is set; [audioSourcesRef] holds the buffer sources by
    their number of creation ([sourcesCreated]); [trace] is the log of
    platform calls. *)
Record State := mkState {
  messages : list Message;
  input : string;
  appState : AppState;
  isLoading : bool;
  report : option Json.Value;
  isRecording : bool;
  isLive : bool;
  sessionStartTime : option Z;
  currentTime : Z;
  chatRef : bool;
  audioContextInRef : bool;
  audioContextOutRef : bool;
  liveSessionRef : bool;
  nextStartTimeRef : Z;
  audioSourcesRef : gset nat;
  transcriptionBufferRef : TranscriptionBuffer;
  sourcesCreated : nat;
  trace : list Effect
}.

(** The setters: [setX(v)] of a [useState] pair, [xRef.current = v] of a ref. *)

Definition set_messages (v : list Message) (s : State) : State :=
  mkState v (input s) (appState s) (isLoading s) (report s) (isRecording s)
    (isLive s) (sessionStartTime s) (currentTime s) (chatRef s)
    (audioContextInRef s) (audioContextOutRef s) (liveSessionRef s)
    (nextStartTimeRef s) (audioSourcesRef s) (transcriptionBufferRef s)
    (sourcesCreated s) (trace s).

Definition set_input (v : string) (s : State) : State :=
  mkState (messages s) v (appState s) (isLoading s) (report s)
    (isRecording s) (isLive s) (sessionStartTime s) (currentTime s)
    (chatRef s) (audioContextInRef s) (audioContextOutRef s)
    (liveSessionRef s) (nextStartTimeRef s) (audioSourcesRef s)
    (transcriptionBufferRef s) (sourcesCreated s) (trace s).

Definition set_appState (v : AppState) (s : State) : State :=
  mkState (messages s) (input s) v (isLoading s) (report s) (isRecording s)
    (isLive s) (sessionStartTime s) (currentTime s) (chatRef s)
    (audioContextInRef s) (audioContextOutRef s) (liveSessionRef s)
    (nextStartTimeRef s) (audioSourcesRef s) (transcriptionBufferRef s)
    (sourcesCreated s) (trace s).

Definition set_isLoading (v : bool) (s : State) : State :=
  mkState (messages s) (input s) (appState s) v (report s) (isRecording s)
    (isLive s) (sessionStartTime s) (currentTime s) (chatRef s)
    (audioContextInRef s) (audioContextOutRef s) (liveSessionRef s)
    (nextStartTimeRef s) (audioSourcesRef s) (transcriptionBufferRef s)
    (sourcesCreated s) (trace s).

Definition set_report (v : option Json.Value) (s : State) : State :=
  mkState (messages s) (input s) (appState s) (isLoading s) v
    (isRecording s) (isLive s) (sessionStartTime s) (currentTime s)
    (chatRef s) (audioContextInRef s) (audioContextOutRef s)
    (liveSessionRef s) (nextStartTimeRef s) (audioSourcesRef s)
    (transcriptionBufferRef s) (sourcesCreated s) (trace s).

Definition set_isRecording (v : bool) (s : State) : State :=
  mkState (messages s) (input s) (appState s) (isLoading s) (report s) v
    (isLive s) (sessionStartTime s) (currentTime s) (chatRef s)
    (audioContextInRef s) (audioContextOutRef s) (liveSessionRef s)
    (nextStartTimeRef s) (audioSourcesRef s) (transcriptionBufferRef s)
    (sourcesCreated s) (trace s).

Definition set_isLive (v : bool) (s : State) : State :=
  mkState (messages s) (input s) (appState s) (isLoading s) (report s)
    (isRecording s) v (sessionStartTime s) (currentTime s) (chatRef s)
    (audioContextInRef s) (audioContextOutRef s) (liveSessionRef s)
    (nextStartTimeRef s) (audioSourcesRef s) (transcriptionBufferRef s)
    (sourcesCreated s) (trace s).

Definition set_sessionStartTime (v : option Z) (s : State) : State :=
  mkState (messages s) (input s) (appState s) (isLoading s) (report s)
    (isRecording s) (isLive s) v (currentTime s) (chatRef s)
    (audioContextInRef s) (audioContextOutRef s) (liveSessionRef s)
    (nextStartTimeRef s) (audioSourcesRef s) (transcriptionBufferRef s)
    (sourcesCreated s) (trace s).

Definition set_chatRef (v : bool) (s : State) : State :=
  mkState (messages s) (input s) (appState s) (isLoading s) (report s)
    (isRecording s) (isLive s) (sessionStartTime s) (currentTime s) v
    (audioContextInRef s) (audioContextOutRef s) (liveSessionRef s)
    (nextStartTimeRef s) (audioSourcesRef s) (transcriptionBufferRef s)
    (sourcesCreated s) (trace s).

Definition set_audioContextInRef (v : bool) (s : State) : State :=
  mkState (messages s) (input s) (appState s) (isLoading s) (report s)
    (isRecording s) (isLive s) (sessionStartTime s) (currentTime s)
    (chatRef s) v (audioContextOutRef s) (liveSessionRef s)
    (nextStartTimeRef s) (audioSourcesRef s) (transcriptionBufferRef s)
    (sourcesCreated s) (trace s).

Definition set_audioContextOutRef (v : bool) (s : State) : State :=
  mkState (messages s) (input s) (appState s) (isLoading s) (report s)
    (isRecording s) (isLive s) (sessionStartTime s) (currentTime s)
    (chatRef s) (audioContextInRef s) v (liveSessionRef s)
    (nextStartTimeRef s) (audioSourcesRef s) (transcriptionBufferRef s)
    (sourcesCreated s) (trace s).

Definition set_liveSessionRef (v : bool) (s : State) : State :=
  mkState (messages s) (input s) (appState s) (isLoading s) (report s)
    (isRecording s) (isLive s) (sessionStartTime s) (currentTime s)
    (chatRef s) (audioContextInRef s) (audioContextOutRef s) v
    (nextStartTimeRef s) (audioSourcesRef s) (transcriptionBufferRef s)
    (sourcesCreated s) (trace s).

Definition set_nextStartTimeRef (v : Z) (s : State) : State :=
  mkState (messages s) (input s) (appState s) (isLoading s) (report s)
    (isRecording s) (isLive s) (sessionStartTime s) (currentTime s)
    (chatRef s) (audioContextInRef s) (audioContextOutRef s)
    (liveSessionRef s) v (audioSourcesRef s) (transcriptionBufferRef s)
    (sourcesCreated s) (trace s).

Definition set_audioSourcesRef (v : gset nat) (s : State) : State :=
  mkState (messages s) (input s) (appState s) (isLoading s) (report s)
    (isRecording s) (isLive s) (sessionStartTime s) (currentTime s)
    (chatRef s) (audioContextInRef s) (audioContextOutRef s)
    (liveSessionRef s) (nextStartTimeRef s) v (transcriptionBufferRef s)
    (sourcesCreated s) (trace s).

Definition set_transcriptionBufferRef (v : TranscriptionBuffer) (s : State) : State :=
  mkState (messages s) (input s) (appState s) (isLoading s) (report s)
    (isRecording s) (isLive s) (sessionStartTime s) (currentTime s)
    (chatRef s) (audioContextInRef s) (audioContextOutRef s)
    (liveSessionRef s) (nextStartTimeRef s) (audioSourcesRef s) v
    (sourcesCreated s) (trace s).

Definition set_sourcesCreated (v : nat) (s : State) : State :=
  mkState (messages s) (input s) (appState s) (isLoading s) (report s)
    (isRecording s) (isLive s) (sessionStartTime s) (currentTime s)
    (chatRef s) (audioContextInRef s) (audioContextOutRef s)
    (liveSessionRef s) (nextStartTimeRef s) (audioSourcesRef s)
    (transcriptionBufferRef s) v (trace s).

Definition set_trace (v : list Effect) (s : State) : State :=
  mkState (messages s) (input s) (appState s) (isLoading s) (report s)
    (isRecording s) (isLive s) (sessionStartTime s) (currentTime s)
    (chatRef s) (audioContextInRef s) (audioContextOutRef s)
    (liveSessionRef s) (nextStartTimeRef s) (audioSourcesRef s)
    (transcriptionBufferRef s) (sourcesCreated s) v.

Definition emit (e : Effect) (s : State) : State :=
set_trace (trace s ++ [e])%list s.

(** The state of a freshly mounted component. *)
Definition initial (now : Z) : State :=
{| messages := []; input := ""; appState := CHATTING; isLoading := false;
   report := None; isRecording := false; isLive := false;
   sessionStartTime := None; currentTime := now; chatRef := false;
   audioContextInRef := false; audioContextOutRef := false;
   liveSessionRef := false; nextStartTimeRef := 0;
   audioSourcesRef := ∅;
   transcriptionBufferRef := {| buf_user := ""; buf_model := "" |};
   sourcesCreated := 0; trace := [] |}.

(** *** The timer gate

    Both functions close over the [sessionStartTime] and [currentTime] of
    the render that created them; [s] is that render's state.
    [!sessionStartTime] holds of [null] and of the number 0. *)

Definition getElapsedTime (s : State) : Z :=
match sessionStartTime s with
| None => 0
| Some t => if (t =? 0)%Z then 0 else Z.max 0 (currentTime s - t)
end.

Definition canRequestAssessment (s : State) : bool :=
(180000 <=? getElapsedTime s)%Z.

(** *** The assessment trigger test *)

Definition triggerKeywords : list string :=
["assessment"; "report"; "i need my language assessment now"].

(** [triggerKeywords.some(k => text.toLowerCase().includes(k))]. *)
Definition matchesTrigger (t : string) : bool :=
Js.some (fun k => Js.includes (Js.toLowerCase t) k) triggerKeywords.

(** *** [handleTriggerAssessment], cut at its two awaits *)

(** Up to [await generateAssessment(history)]. *)
Definition handleTriggerAssessment (history : list Message) (s : State) : State :=
emit (call_generateAssessment history) (set_isLoading true (set_appState ASSESSING s)).

(** The [catch] and [finally] blocks. *)
Definition assessment_failed (s : State) : State :=
set_isLoading false
  (emit (alert "Assessment synthesis failed.")
     (set_appState CHATTING (emit (console_error "Assessment error:") s))).

(** Whether [ToString] of a parsed value throws, as the template literal
    applies it.  An object is converted by its [toString] member: a parsed
    object that has a member of that name of its own hides
    [Object.prototype.toString] by a value that is no function, and neither
    is its [valueOf] or gives a primitive, so the conversion ends in a
    [TypeError]; without such a member the object reads "[object Object]".
    An array is converted by [join], which converts every element but
    [null] in the same way.  The other values are primitives. *)
Fixpoint toString_throws (v : Json.Value) : bool :=
match v with
| Json.JObject fields =>
    match Json.lookup_field (Json.units "toString") fields with
    | Some _ => true
    | None => false
    end
| Json.JArray items => existsb toString_throws items
| _ => false
end.

(** [`Your report is ready. ${assessment.summary}`]: reading a property of
    [null] throws; of any other parsed value it gives the member, or
    [undefined]; and the template literal converts what was read to a
    string, which throws as [toString_throws] says.  The result is the
    value read, which the readout text is made of. *)
Definition read_summary (assessment : Json.Value) : Outcome (option Json.Value) :=
match assessment with
| Json.JNull => Rejected (TypeError "Cannot read properties of null")
| Json.JObject fields =>
    match Json.lookup_field (Json.units "summary") fields with
    | Some summary =>
        if toString_throws summary
        then Rejected (TypeError "Cannot convert object to primitive value")
        else Resolved (Some summary)
    | None => Resolved None
    end
| _ => Resolved None
end.

(** A parsed value as the [report] state holds it: JSON [null] is the
    state's [null]. *)
Definition nullable (v : Json.Value) : option Json.Value :=
match v with
| Json.JNull => None
| _ => Some v
end.

(** What the coordinator is waiting for after a step. *)
Inductive Pending :=
| nothing
| speech.

(** From the settled [generateAssessment] promise up to
    [await generateSpeech(readoutText)]. *)
Definition handleTriggerAssessment_assessed
  (assessed : Outcome Json.Value) (s : State) : State * Pending :=
match assessed with
| Rejected _ => (assessment_failed s, nothing)
| Resolved assessment =>
    let s1 := set_appState REPORT (set_report (nullable assessment) s) in
    match read_summary assessment with
    | Rejected _ => (assessment_failed s1, nothing)
    | Resolved summary => (emit (call_generateSpeech summary) s1, speech)
    end
end.

(** From the resolved [generateSpeech] promise to the end:
    [if (base64Audio)] plays the readout, [finally] clears the loading
    flag. *)
Definition handleTriggerAssessment_spoken
  (base64Audio : option string) (s : State) : State :=
let s1 :=
  match base64Audio with
  | Some a => if Js.truthy a then emit (readout_start a) s else s
  | None => s
  end in
set_isLoading false s1.

(** The same await with the promise settled either way: a rejection of
    [generateSpeech] is thrown inside the [try] block of
    [handleTriggerAssessment] and runs its [catch] and [finally] blocks. *)
Definition handleTriggerAssessment_settled
  (spoken : Outcome (option string)) (s : State) : State :=
match spoken with
| Resolved base64Audio => handleTriggerAssessment_spoken base64Audio s
| Rejected _ => assessment_failed s
end.

(** The whole call: the [generateAssessment] promise settling as given,
    the [generateSpeech] promise, where it is awaited, resolving to
    [spoken] (its client was built a moment before for
    [generateAssessment]; [handleTriggerAssessment_settled] has the
    rejection). *)
Definition handleTriggerAssessment_run
  (history : list Message) (assessed : Outcome Json.Value)
  (spoken : option string) (s : State) : State :=
match handleTriggerAssessment_assessed assessed (handleTriggerAssessment history s) with
| (s', speech) => handleTriggerAssessment_spoken spoken s'
| (s', nothing) => s'
end.

(** *** [stopLiveSession] *)

Definition stopLiveSession (s : State) : State :=
let s1 := if liveSessionRef s
          then set_liveSessionRef false (emit liveSession_close s) else s in
let s2 := if audioContextInRef s1 then emit audioContextIn_close s1 else s1 in
let s3 := if audioContextOutRef s2 then emit audioContextOut_close s2 else s2 in
set_isLive false (set_audioContextOutRef false (set_audioContextInRef false s3)).

(** *** [handleSendMessage], cut at [await chatRef.current.sendMessage]

    [now] is the reading of [Date.now()] during the call. *)

Definition handleSendMessage (t : string) (isInitial : bool) (now : Z) (s : State)
  : State :=
if negb (Js.truthy (Js.trim t)) && negb isInitial then s
else if negb (chatRef s) then s
else
  let s1 := if isRecording s
            then set_isRecording false (emit recognition_stop s) else s in
  let isTrigger := negb isInitial && matchesTrigger t in
  let send st := emit (chat_sendMessage t) (set_isLoading true st) in
  if negb isInitial then
    let s2 := match sessionStartTime s with
              | None => set_sessionStartTime (Some now) s1
              | Some t0 => if (t0 =? 0)%Z then set_sessionStartTime (Some now) s1 else s1
              end in
    let userMsg := {| role := user; content := t; senderName := None; timestamp := now |} in
    let s3 := set_messages (messages s2 ++ [userMsg])%list s2 in
    let s4 := set_input "" s3 in
    if isTrigger && canRequestAssessment s
    then handleTriggerAssessment (messages s ++ [userMsg])%list s4
    else send s4
  else send s1.

(** The reply of the chat, or its failure; [result.text || "..."]. *)
Definition handleSendMessage_replied
  (reply : Outcome (option string)) (now : Z) (s : State) : State :=
let s1 :=
  match reply with
  | Resolved t =>
      let shown := match t with Some x => Js.or_else x "..." | None => "..." end in
      set_messages (messages s ++ [{| role := model; content := shown;
                                      senderName := None; timestamp := now |}])%list s
  | Rejected _ => emit (console_error "Chat error:") s
  end in
set_isLoading false s1.

(** *** The live session's [onmessage] callback *)

(** What the callback reads of a [LiveServerMessage], its first statement
    passed: the value of
    [serverContent?.modelTurn?.parts[0]?.inlineData?.data], the [text] of
    [serverContent?.inputTranscription] and of
    [serverContent?.outputTranscription], and the two flags. *)
Record LiveServerMessage := {
  audio : option string;
  inputTranscription : option string;
  outputTranscription : option string;
  turnComplete : bool;
  interrupted : bool
}.

(** The message as it is delivered.  The chain of the first statement has
    no [?.] between [parts] and [[0]]: a model turn without [parts] makes
    the read throw. *)
Module Wire.

Inductive ModelTurn :=
| without_parts
| with_parts (first_data : option string).

Record ServerMessage := {
  modelTurn : option ModelTurn;
  inputTranscription : option string;
  outputTranscription : option string;
  turnComplete : bool;
  interrupted : bool
}.

End Wire.

(** [message.serverContent?.modelTurn?.parts[0]?.inlineData?.data]:
    [undefined] without a model turn; with one, what the first part holds,
    if anything; a [TypeError] when the model turn has no [parts]. *)
Definition read_audio (w : Wire.ServerMessage) : Outcome (option string) :=
match Wire.modelTurn w with
| None => Resolved None
| Some (Wire.with_parts first_data) => Resolved first_data
| Some Wire.without_parts => Rejected (TypeError "Cannot read properties of undefined")
end.

Definition as_read (base64Audio : option string) (w : Wire.ServerMessage)
  : LiveServerMessage :=
{| audio := base64Audio;
   inputTranscription := Wire.inputTranscription w;
   outputTranscription := Wire.outputTranscription w;
   turnComplete := Wire.turnComplete w;
   interrupted := Wire.interrupted w |}.

(** [prev.slice(0, -1)]. *)
Definition slice_but_last {A} (prev : list A) : list A := removelast prev.

Definition is_model (m : Message) : bool := bool_decide (role m = model).

Section Live.

Context `{AudioUtils}.

(** The audio branch: the cursor is first raised to the output clock, the
    decoded buffer starts at the cursor, the cursor advances by the
    buffer's duration, and the source joins the tracked set. *)
Definition onAudioChunk (base64Audio : string) (ctxNow : Z) (s : State) : State :=
let s1 := set_nextStartTimeRef (Z.max (nextStartTimeRef s) ctxNow) s in
let buffer := decodeAudioData base64Audio in
let source := sourcesCreated s1 in
let s2 := set_sourcesCreated (S source) s1 in
let s3 := emit (source_start source (nextStartTimeRef s2) (duration buffer)) s2 in
let s4 := set_nextStartTimeRef (nextStartTimeRef s3 + duration buffer)%Z s3 in
set_audioSourcesRef ({[source]} ∪ audioSourcesRef s4) s4.

(** The [ended] listener of a source. *)
Definition onSourceEnded (source : nat) (s : State) : State :=
set_audioSourcesRef (audioSourcesRef s ∖ {[source]}) s.

Definition onInputTranscription (t : string) (s : State) : State :=
let b := transcriptionBufferRef s in
set_transcriptionBufferRef {| buf_user := buf_user b ++ t; buf_model := buf_model b |} s.

(** The [outputTranscription] branch.  The delta is added to the model
    buffer at once.  The update of the timeline is a function that React
    runs when the callback has returned: its append branch holds the
    delta, a constant of the callback, and its replace branch reads
    [transcriptionBufferRef.current.model] as the callback has left it,
    which is empty when the [turnComplete] branch of the same message has
    run in between; [completes] says whether it has. *)
Definition onOutputTranscription (t : string) (completes : bool) (now : Z) (s : State)
  : State :=
let b := transcriptionBufferRef s in
let s1 := set_transcriptionBufferRef
            {| buf_user := buf_user b; buf_model := buf_model b ++ t |} s in
let prev := messages s1 in
let appended :=
  (prev ++ [{| role := model; content := t; senderName := None; timestamp := now |}])%list in
set_messages
  match last prev with
  | Some l =>
      if is_model l
      then (slice_but_last prev ++
              [{| role := role l;
                  content := if completes then ""
                             else buf_model (transcriptionBufferRef s1);
                  senderName := senderName l; timestamp := timestamp l |}])%list
      else appended
  | None => appended
  end s1.

(** The [turnComplete] branch.  [render] is the state of the render in
    which [startLiveSession] created the callback: [canRequestAssessment]
    is the closure of that render. *)
Definition onTurnComplete (render : State) (now : Z) (s : State) : State :=
let userText := buf_user (transcriptionBufferRef s) in
let s1 :=
  if Js.truthy userText then
    let prev := messages s in
    let lastModel := last prev in
    let withoutLast :=
      match lastModel with
      | Some l => if is_model l then slice_but_last prev else prev
      | None => prev
      end in
    let userMsg := {| role := user; content := userText; senderName := None;
                      timestamp := now |} in
    (* [...withoutLast, userMsg, lastModel].filter(Boolean) *)
    set_messages (withoutLast ++ userMsg :: match lastModel with
                                             | Some l => [l]
                                             | None => []
                                             end)%list s
  else s in
let s2 :=
  if Js.truthy (Js.toLowerCase userText) && matchesTrigger userText
     && canRequestAssessment render
  then let s' := stopLiveSession s1 in handleTriggerAssessment (messages s') s'
  else s1 in
set_transcriptionBufferRef {| buf_user := ""; buf_model := "" |} s2.

(** The [interrupted] branch. *)
Definition onInterrupted (s : State) : State :=
let s1 := foldl (fun st source => emit (source_stop source) st) s
                (elements (audioSourcesRef s)) in
set_nextStartTimeRef 0 (set_audioSourcesRef ∅ s1).

(** The callback: its five branches in the order of the source.  [now] is
    the reading of [Date.now()], [ctxNow] that of the output context's
    [currentTime]. *)
Definition onmessage (render : State) (message : LiveServerMessage)
  (now ctxNow : Z) (s : State) : State :=
let s1 := match audio message with
          | Some base64Audio =>
              if Js.truthy base64Audio && audioContextOutRef s
              then onAudioChunk base64Audio ctxNow s else s
          | None => s
          end in
let s2 := match inputTranscription message with
          | Some t => onInputTranscription t s1
          | None => s1
          end in
let s3 := match outputTranscription message with
          | Some t => onOutputTranscription t (turnComplete message) now s2
          | None => s2
          end in
let s4 := if turnComplete message then onTurnComplete render now s3 else s3 in
if interrupted message then onInterrupted s4 else s4.

(** The callback on a delivered message.  When the first statement throws,
    the callback, an async function, ends there with a rejected promise
    that nothing handles: no branch has run and no state has changed. *)
Definition onmessage_delivered (render : State) (w : Wire.ServerMessage)
  (now ctxNow : Z) (s : State) : State :=
match read_audio w with
| Rejected _ => s
| Resolved base64Audio => onmessage render (as_read base64Audio w) now ctxNow s
end.

(** A run of the callback over the messages of a session, each with its
    two clock readings. *)
Record Delivery := {
  delivered : LiveServerMessage;
  at_now : Z;
  at_ctx : Z
}.

Definition run (render : State) (ds : list Delivery) (s : State) : State :=
foldl (fun st d => onmessage render (delivered d) (at_now d) (at_ctx d) st) s ds.

End Live.

(** The events of the specification, as messages. *)
Definition no_message : LiveServerMessage :=
{| audio := None; inputTranscription := None; outputTranscription := None;
   turnComplete := false; interrupted := false |}.

Definition audioChunk (base64Audio : string) : LiveServerMessage :=
{| audio := Some base64Audio; inputTranscription := None;
   outputTranscription := None; turnComplete := false; interrupted := false |}.

Definition outputTranscriptionEvent (t : string) : LiveServerMessage :=
{| audio := None; inputTranscription := None; outputTranscription := Some t;
   turnComplete := false; interrupted := false |}.

Definition turnCompleteEvent : LiveServerMessage :=
{| audio := None; inputTranscription := None; outputTranscription := None;
   turnComplete := true; interrupted := false |}.

Definition interruptedEvent : LiveServerMessage :=
{| audio := None; inputTranscription := None; outputTranscription := None;
   turnComplete := false; interrupted := true |}.

(** Messages and buffers the properties speak of. *)
Definition userMessage (t : string) (now : Z) : Message :=
{| role := user; content := t; senderName := None; timestamp := now |}.

Definition modelMessage (t : string) (now : Z) : Message :=
{| role := model; content := t; senderName := None; timestamp := now |}.

(** [{ ...last, content: c }]. *)
Definition with_content (c : string) (l : Message) : Message :=
{| role := role l; content := c; senderName := senderName l;
   timestamp := timestamp l |}.

Definition ends_in_model (timeline : list Message) : bool :=
match last timeline with
| Some l => is_model l
| None => false
end.

Definition cleared : TranscriptionBuffer := {| buf_user := ""; buf_model := "" |}.

(** Whether the audio branch runs: the payload is a non-empty string and
    the output context is there. *)
Definition plays (m : LiveServerMessage) (s : State) : option string :=
match audio m with
| Some a => if Js.truthy a && audioContextOutRef s then Some a else None
| None => None
end.

(** Consecutive buffers do not overlap: each starts at or after the end
    of the one before. *)
Definition no_overlap (l : list (Z * Z)) : Prop :=
forall (i : nat) w d w' d',
  l !! i = Some (w, d) -> l !! S i = Some (w', d') -> (w + d <= w')%Z.

(** The last buffer, if any, ends by the cursor. *)
Definition ends_by (cursor : Z) (l : list (Z * Z)) : Prop :=
forall w d, last l = Some (w, d) -> (w + d <= cursor)%Z.

Section LiveSplit.

Context `{AudioUtils}.

(** The state just before the [interrupted] branch of the callback. *)
Definition before_interrupted (render : State) (m : LiveServerMessage)
  (now ctxNow : Z) (s : State) : State :=
onmessage render
  {| audio := audio m; inputTranscription := inputTranscription m;
     outputTranscription := outputTranscription m;
     turnComplete := turnComplete m; interrupted := false |} now ctxNow s.

End LiveSplit.

(** The buffers started by a trace, as (start, duration), in order. *)
Definition scheduled (t : list Effect) : list (Z * Z) :=
omap (fun e => match e with
               | source_start _ w d => Some (w, d)
               | _ => None
               end) t.

(** The sources stopped by a trace. *)
Definition stopped (t : list Effect) : list nat :=
omap (fun e => match e with
               | source_stop i => Some i
               | _ => None
               end) t.

(** * Properties *)

(** *** Facts on the string primitives *)

Section JsFacts.

Lemma append_assoc (a b c : string) : (a ++ b) ++ c = a ++ (b ++ c).
Proof. induction a as [|x a IH]; simpl; [reflexivity | now rewrite IH]. Qed.

Lemma toLowerCase_app (a b : string) :
  Js.toLowerCase (a ++ b) = Js.toLowerCase a ++ Js.toLowerCase b.
Proof. induction a as [|x a IH]; simpl; [reflexivity | now rewrite IH]. Qed.

Lemma startsWith_spec (s k : string) :
  Js.startsWith s k = true <-> exists post, s = k ++ post.
Proof.
  revert s. induction k as [|a k IH]; intros s; simpl.
  - split; [intros _; now exists s | reflexivity].
  - destruct s as [|b s].
    + split; [discriminate | intros [post H]; discriminate].
    + rewrite andb_true_iff, IH. split.
      * intros [Hab [post ->]]. apply Ascii.eqb_eq in Hab. subst. now exists post.
      * intros [post H]. injection H as -> ->. split.
        -- apply Ascii.eqb_refl.
        -- now exists post.
Qed.

Lemma includes_spec (s k : string) :
  Js.includes s k = true <-> exists pre post, s = pre ++ k ++ post.
Proof.
  induction s as [|c s IH].
  - simpl. rewrite orb_false_r, startsWith_spec. split.
    + intros [post H]. now exists "", post.
    + intros [pre [post H]]. destruct pre; [now exists post | discriminate].
  - cbn [Js.includes]. rewrite orb_true_iff, startsWith_spec, IH. split.
    + intros [[post H] | [pre [post H]]].
      * now exists "", post.
      * exists (String c pre), post. simpl. now rewrite H.
    + intros [pre [post H]]. destruct pre as [|x pre].
      * left. now exists post.
      * right. simpl in H. injection H as _ ->. now exists pre, post.
Qed.

Lemma truthy_false (s : string) : Js.truthy s = false <-> s = "".
Proof. destruct s; simpl; split; congruence. Qed.

Lemma includes_empty (k : string) :
  Js.truthy k = true -> Js.includes "" k = false.
Proof. destruct k; simpl; [discriminate | reflexivity]. Qed.

End JsFacts.

(** ** The assessment trigger test *)

Section Trigger.

Lemma matchesTrigger_spec (t : string) :
  matchesTrigger t = true <->
  exists k pre post, In k triggerKeywords /\ Js.toLowerCase t = pre ++ k ++ post.
Proof.
  unfold matchesTrigger, Js.some. rewrite existsb_exists. split.
  - intros [k [Hk Hin]]. apply includes_spec in Hin as [pre [post Heq]].
    now exists k, pre, post.
  - intros [k [pre [post [Hk Heq]]]]. exists k. split; [exact Hk |].
    apply includes_spec. now exists pre, post.
Qed.

Lemma matchesTrigger_lowered (t u : string) :
  Js.toLowerCase t = Js.toLowerCase u -> matchesTrigger t = matchesTrigger u.
Proof. unfold matchesTrigger. now intros ->. Qed.

Lemma matchesTrigger_report_now (pre post : string) :
  matchesTrigger (pre ++ "I need my REPORT now" ++ post) = true.
Proof.
  apply matchesTrigger_spec.
  exists "report", (Js.toLowerCase pre ++ "i need my "), (" now" ++ Js.toLowerCase post).
  split; [simpl; tauto |].
  rewrite !toLowerCase_app, !append_assoc. reflexivity.
Qed.

(** A text that matches is not empty, so the guard
    [userText.toLowerCase() && ...] of the live branch adds nothing. *)
Lemma matchesTrigger_guard (t : string) :
  Js.truthy (Js.toLowerCase t) && matchesTrigger t = matchesTrigger t.
Proof. destruct t; reflexivity. Qed.

(** C6: the assessment trigger test is a case-insensitive substring match
    against the fixed phrases: it holds of a text exactly when the
    lowercased text contains one of them, it depends on the text only
    through its lowercase form, any message containing
    "I need my REPORT now" matches, and the test of the live branch
    (guarded by the text being non-empty) is the same test. *)
Theorem trigger_test_is_case_insensitive_substring_match :
  (forall t, matchesTrigger t = true <->
     exists k pre post,
       In k ["assessment"; "report"; "i need my language assessment now"]
       /\ Js.toLowerCase t = pre ++ k ++ post)
  /\ (forall t u, Js.toLowerCase t = Js.toLowerCase u ->
        matchesTrigger t = matchesTrigger u)
  /\ (forall pre post, matchesTrigger (pre ++ "I need my REPORT now" ++ post) = true)
  /\ (forall t, Js.truthy (Js.toLowerCase t) && matchesTrigger t = matchesTrigger t).
Proof.
  split; [exact matchesTrigger_spec |].
  split; [exact matchesTrigger_lowered |].
  split; [exact matchesTrigger_report_now | exact matchesTrigger_guard].
Qed.

Example trigger_upper_case : matchesTrigger "Can I get my ASSESSMENT?" = true.
Proof. reflexivity. Qed.

Example trigger_plural_and_none :
  matchesTrigger "Tell me about reports" = true
  /\ matchesTrigger "Tell me about the weather" = false.
Proof. split; reflexivity. Qed.

End Trigger.

(** ** The timer gate *)

Section TimerGate.

Local Open Scope Z_scope.

Lemma getElapsedTime_not_started (s : State) :
  sessionStartTime s = None -> getElapsedTime s = 0.
Proof. unfold getElapsedTime. now intros ->. Qed.

Lemma getElapsedTime_started (s : State) (t : Z) :
  sessionStartTime s = Some t -> t <> 0 ->
  getElapsedTime s = Z.max 0 (currentTime s - t).
Proof.
  unfold getElapsedTime. intros -> Ht.
  destruct (Z.eqb_spec t 0); [contradiction | reflexivity].
Qed.

Lemma canRequestAssessment_iff (s : State) :
  canRequestAssessment s = true <-> 180000 <= getElapsedTime s.
Proof. unfold canRequestAssessment. apply Z.leb_le. Qed.

(** C7: [canRequestAssessment()] is true exactly when the elapsed session
    time is at least 180000 ms, the elapsed time being zero when no session
    has been started and [currentTime - sessionStartTime] (never below
    zero) for a session started at a timestamp [t] (any reading of
    [Date.now()] but the epoch itself); so it is false at 179999 ms and
    true at 180000 ms. *)
Theorem canRequestAssessment_threshold :
  (forall s, canRequestAssessment s = true <-> 180000 <= getElapsedTime s)
  /\ (forall s, sessionStartTime s = None ->
        getElapsedTime s = 0 /\ canRequestAssessment s = false)
  /\ (forall s t, sessionStartTime s = Some t -> t <> 0 ->
        getElapsedTime s = Z.max 0 (currentTime s - t)
        /\ (canRequestAssessment s = true <-> 180000 <= currentTime s - t))
  /\ (forall s t, sessionStartTime s = Some t -> t <> 0 ->
        currentTime s - t = 179999 -> canRequestAssessment s = false)
  /\ (forall s t, sessionStartTime s = Some t -> t <> 0 ->
        currentTime s - t = 180000 -> canRequestAssessment s = true).
Proof.
  split; [exact canRequestAssessment_iff |].
  split.
  { intros s Hs. unfold canRequestAssessment.
    rewrite (getElapsedTime_not_started s Hs). split; reflexivity. }
  split.
  { intros s t Hs Ht. split; [now apply getElapsedTime_started |].
    rewrite canRequestAssessment_iff, (getElapsedTime_started s t Hs Ht). lia. }
  split.
  - intros s t Hs Ht He. unfold canRequestAssessment.
    rewrite (getElapsedTime_started s t Hs Ht), He. reflexivity.
  - intros s t Hs Ht He. unfold canRequestAssessment.
    rewrite (getElapsedTime_started s t Hs Ht), He. reflexivity.
Qed.

Example gate_closed_at_179999 :
  canRequestAssessment
    (set_sessionStartTime (Some 1700000000000) (initial 1700000179999)) = false.
Proof. reflexivity. Qed.

Example gate_open_at_180000 :
  canRequestAssessment
    (set_sessionStartTime (Some 1700000000000) (initial 1700000180000)) = true.
Proof. reflexivity. Qed.

End TimerGate.

(** ** Frame lemmas: what the helpers leave alone *)

Section Frames.

Lemma messages_stopLiveSession (s : State) :
  messages (stopLiveSession s) = messages s.
Proof.
  unfold stopLiveSession.
  destruct (liveSessionRef s); cbn;
    destruct (audioContextInRef s); cbn;
    destruct (audioContextOutRef s); reflexivity.
Qed.

Lemma audioSources_stopLiveSession (s : State) :
  audioSourcesRef (stopLiveSession s) = audioSourcesRef s.
Proof.
  unfold stopLiveSession.
  destruct (liveSessionRef s); cbn;
    destruct (audioContextInRef s); cbn;
    destruct (audioContextOutRef s); reflexivity.
Qed.

Lemma nextStartTime_stopLiveSession (s : State) :
  nextStartTimeRef (stopLiveSession s) = nextStartTimeRef s.
Proof.
  unfold stopLiveSession.
  destruct (liveSessionRef s); cbn;
    destruct (audioContextInRef s); cbn;
    destruct (audioContextOutRef s); reflexivity.
Qed.

Lemma scheduled_app (t u : list Effect) :
  scheduled (t ++ u) = (scheduled t ++ scheduled u)%list.
Proof. unfold scheduled. apply omap_app. Qed.

Lemma stopped_app (t u : list Effect) :
  stopped (t ++ u) = (stopped t ++ stopped u)%list.
Proof. unfold stopped. apply omap_app. Qed.

Lemma scheduled_stopLiveSession (s : State) :
  scheduled (trace (stopLiveSession s)) = scheduled (trace s).
Proof.
  unfold stopLiveSession.
  destruct (liveSessionRef s); cbn;
    destruct (audioContextInRef s); cbn;
    destruct (audioContextOutRef s); cbn;
    rewrite ?scheduled_app; cbn; rewrite ?app_nil_r; reflexivity.
Qed.

Lemma last_snoc_model (prior : list Message) (m : Message) :
  last (prior ++ [m]) = Some m /\ slice_but_last (prior ++ [m]) = prior.
Proof. split; [apply last_snoc | apply removelast_last]. Qed.

End Frames.

(** ** The live turn: transcription and turn boundaries *)

Section LiveTurn.

Context `{AudioUtils}.

#[local] Arguments stopLiveSession : simpl never.
#[local] Arguments slice_but_last : simpl never.

(** The timeline after the [turnComplete] branch: the hand-over to the
    assessment and the clearing of the buffers do not touch it. *)
Lemma messages_onTurnComplete (render : State) (now : Z) (s : State) :
  messages (onTurnComplete render now s) =
  let userText := buf_user (transcriptionBufferRef s) in
  if Js.truthy userText then
    ((match last (messages s) with
      | Some l => if is_model l then slice_but_last (messages s) else messages s
      | None => messages s
      end) ++ userMessage userText now ::
       match last (messages s) with Some l => [l] | None => [] end)%list
  else messages s.
Proof.
  unfold onTurnComplete. cbn zeta.
  destruct (Js.truthy (Js.toLowerCase (buf_user (transcriptionBufferRef s)))
            && matchesTrigger (buf_user (transcriptionBufferRef s))
            && canRequestAssessment render);
    destruct (Js.truthy (buf_user (transcriptionBufferRef s)));
    cbn; rewrite ?messages_stopLiveSession; reflexivity.
Qed.

Lemma onmessage_turnCompleteEvent (render : State) (now ctxNow : Z) (s : State) :
  onmessage render turnCompleteEvent now ctxNow s = onTurnComplete render now s.
Proof. reflexivity. Qed.

(** C2: on a timeline that ends in a model message, with a non-empty
    buffered user transcript, handling [turnComplete] rebuilds the end of
    the timeline as [...prior, userMessage, modelMessage]: the flushed
    user message lands immediately before the just-finalized model
    message. *)
Theorem turnComplete_flushes_user_before_model
  (render : State) (now ctxNow : Z) (s : State)
  (prior : list Message) (modelMsg : Message) :
  messages s = (prior ++ [modelMsg])%list ->
  role modelMsg = model ->
  Js.truthy (buf_user (transcriptionBufferRef s)) = true ->
  messages (onmessage render turnCompleteEvent now ctxNow s) =
  (prior ++ [userMessage (buf_user (transcriptionBufferRef s)) now; modelMsg])%list.
Proof.
  intros Hm Hrole Hu.
  rewrite onmessage_turnCompleteEvent, messages_onTurnComplete. cbn zeta.
  rewrite Hu, Hm.
  destruct (last_snoc_model prior modelMsg) as [-> ->].
  unfold is_model. rewrite Hrole. reflexivity.
Qed.

(** C10: when the buffered user transcript is empty, handling
    [turnComplete] changes nothing but the transcription buffers, which
    are cleared: the timeline is the same, no user message is appended and
    the trailing model message stays where it is. *)
Theorem turnComplete_with_empty_transcript_only_clears_buffers
  (render : State) (now ctxNow : Z) (s : State) :
  buf_user (transcriptionBufferRef s) = "" ->
  onmessage render turnCompleteEvent now ctxNow s
    = set_transcriptionBufferRef cleared s
  /\ messages (onmessage render turnCompleteEvent now ctxNow s) = messages s.
Proof.
  intros Hu. rewrite onmessage_turnCompleteEvent.
  unfold onTurnComplete. cbn zeta. rewrite Hu. cbn. split; reflexivity.
Qed.

(** What [outputTranscription] does to the timeline. *)
Lemma messages_onOutputTranscription_replace
  (t : string) (now : Z) (s : State) (prior : list Message) (l : Message) :
  messages s = (prior ++ [l])%list -> role l = model ->
  messages (onOutputTranscription t false now s) =
  (prior ++ [with_content (buf_model (transcriptionBufferRef s) ++ t) l])%list.
Proof.
  intros Hm Hrole. unfold onOutputTranscription. cbn. rewrite Hm.
  destruct (last_snoc_model prior l) as [-> ->].
  unfold is_model, with_content. rewrite Hrole. reflexivity.
Qed.

Lemma messages_onOutputTranscription_append
  (t : string) (completes : bool) (now : Z) (s : State) :
  ends_in_model (messages s) = false ->
  messages (onOutputTranscription t completes now s)
  = (messages s ++ [modelMessage t now])%list.
Proof.
  unfold ends_in_model, onOutputTranscription. cbn.
  destruct (last (messages s)) as [l|]; [| reflexivity].
  now intros ->.
Qed.

Lemma buffer_onOutputTranscription
  (t : string) (completes : bool) (now : Z) (s : State) :
  transcriptionBufferRef (onOutputTranscription t completes now s) =
  {| buf_user := buf_user (transcriptionBufferRef s);
     buf_model := buf_model (transcriptionBufferRef s) ++ t |}.
Proof.
  unfold onOutputTranscription. cbn.
  destruct (last (messages s)) as [l|]; [destruct (is_model l) |]; reflexivity.
Qed.

Lemma onmessage_outputTranscriptionEvent
  (render : State) (t : string) (now ctxNow : Z) (s : State) :
  onmessage render (outputTranscriptionEvent t) now ctxNow s
  = onOutputTranscription t false now s.
Proof. reflexivity. Qed.

(** The two deltas of the scenario, each with its clock readings. *)
Definition hi_there (now1 ctx1 now2 ctx2 : Z) : list Delivery :=
[ {| delivered := outputTranscriptionEvent "Hi"; at_now := now1; at_ctx := ctx1 |};
  {| delivered := outputTranscriptionEvent " there"; at_now := now2; at_ctx := ctx2 |} ].

Lemma hi_there_merges (render : State) (now1 ctx1 now2 ctx2 : Z) (s : State) :
  ends_in_model (messages s) = false ->
  messages (run render (hi_there now1 ctx1 now2 ctx2) s)
  = (messages s
     ++ [modelMessage (buf_model (transcriptionBufferRef s) ++ "Hi there") now1])%list.
Proof.
  intros Hend. unfold run, hi_there. cbn [foldl delivered at_now at_ctx].
  rewrite !onmessage_outputTranscriptionEvent.
  rewrite (messages_onOutputTranscription_replace " there" now2
             (onOutputTranscription "Hi" false now1 s) (messages s)
             (modelMessage "Hi" now1)).
  - rewrite buffer_onOutputTranscription. cbn [buf_model].
    rewrite append_assoc. reflexivity.
  - now apply messages_onOutputTranscription_append.
  - reflexivity.
Qed.

End LiveTurn.

(** ** Playback scheduling and interruption *)

Section Playback.

Context `{AudioUtils}.

#[local] Arguments stopLiveSession : simpl never.

Local Open Scope Z_scope.

Lemma no_overlap_snoc (l : list (Z * Z)) (cursor w d : Z) :
  no_overlap l -> ends_by cursor l -> cursor <= w ->
  no_overlap (l ++ [(w, d)]) /\ ends_by (w + d) (l ++ [(w, d)]).
Proof.
  intros Hno Hend Hle. split.
  - intros i w1 d1 w2 d2 H1 H2.
    destruct (decide (S i < length l)%nat) as [Hlt | Hge].
    + rewrite lookup_app_l in H1 by lia. rewrite lookup_app_l in H2 by lia.
      eapply Hno; eassumption.
    + assert (Hi : S i = length l).
      { apply lookup_lt_Some in H2. rewrite length_app in H2. simpl in H2. lia. }
      rewrite lookup_app_l in H1 by lia.
      rewrite lookup_app_r in H2 by lia.
      replace (S i - length l)%nat with 0%nat in H2 by lia.
      simpl in H2. injection H2 as <- <-.
      assert (Hlast : last l = Some (w1, d1)).
      { rewrite last_lookup. replace (pred (length l)) with i by lia. exact H1. }
      specialize (Hend _ _ Hlast). lia.
  - intros w1 d1 Hlast. rewrite last_snoc in Hlast. injection Hlast as <- <-. lia.
Qed.

(** What the branches after the audio branch leave alone. *)
Lemma onInputTranscription_frame (t : string) (s : State) :
  trace (onInputTranscription t s) = trace s
  /\ nextStartTimeRef (onInputTranscription t s) = nextStartTimeRef s
  /\ audioSourcesRef (onInputTranscription t s) = audioSourcesRef s.
Proof. repeat split. Qed.

Lemma onOutputTranscription_frame
  (t : string) (completes : bool) (now : Z) (s : State) :
  trace (onOutputTranscription t completes now s) = trace s
  /\ nextStartTimeRef (onOutputTranscription t completes now s) = nextStartTimeRef s
  /\ audioSourcesRef (onOutputTranscription t completes now s) = audioSourcesRef s.
Proof. repeat split. Qed.

Lemma onTurnComplete_frame (render : State) (now : Z) (s : State) :
  scheduled (trace (onTurnComplete render now s)) = scheduled (trace s)
  /\ nextStartTimeRef (onTurnComplete render now s) = nextStartTimeRef s
  /\ audioSourcesRef (onTurnComplete render now s) = audioSourcesRef s.
Proof.
  unfold onTurnComplete. cbn zeta.
  destruct (Js.truthy (Js.toLowerCase (buf_user (transcriptionBufferRef s)))
            && matchesTrigger (buf_user (transcriptionBufferRef s))
            && canRequestAssessment render);
    destruct (Js.truthy (buf_user (transcriptionBufferRef s)));
    cbn;
    rewrite ?scheduled_app, ?scheduled_stopLiveSession,
      ?nextStartTime_stopLiveSession, ?audioSources_stopLiveSession;
    cbn; rewrite ?app_nil_r; repeat split.
Qed.

(** The scheduling rule of the audio branch. *)
Lemma onAudioChunk_rule (a : string) (ctxNow : Z) (s : State) :
  let start := Z.max (nextStartTimeRef s) ctxNow in
  let d := duration (decodeAudioData a) in
  trace (onAudioChunk a ctxNow s) = (trace s ++ [source_start (sourcesCreated s) start d])%list
  /\ nextStartTimeRef (onAudioChunk a ctxNow s) = start + d
  /\ audioSourcesRef (onAudioChunk a ctxNow s) = {[sourcesCreated s]} ∪ audioSourcesRef s.
Proof. repeat split. Qed.

Lemma onmessage_schedule (render : State) (m : LiveServerMessage)
  (now ctxNow : Z) (s : State) :
  let s' := before_interrupted render m now ctxNow s in
  match plays m s with
  | Some a =>
      let start := Z.max (nextStartTimeRef s) ctxNow in
      let d := duration (decodeAudioData a) in
      scheduled (trace s') = (scheduled (trace s) ++ [(start, d)])%list
      /\ nextStartTimeRef s' = start + d
      /\ audioSourcesRef s' = {[sourcesCreated s]} ∪ audioSourcesRef s
  | None =>
      scheduled (trace s') = scheduled (trace s)
      /\ nextStartTimeRef s' = nextStartTimeRef s
      /\ audioSourcesRef s' = audioSourcesRef s
  end.
Proof.
  unfold before_interrupted, onmessage, plays.
  cbn [audio inputTranscription outputTranscription turnComplete interrupted].
  set (s1 := match audio m with
             | Some a => if Js.truthy a && audioContextOutRef s
                         then onAudioChunk a ctxNow s else s
             | None => s
             end).
  set (s2 := match inputTranscription m with
             | Some t => onInputTranscription t s1
             | None => s1
             end).
  set (s3 := match outputTranscription m with
             | Some t => onOutputTranscription t (turnComplete m) now s2
             | None => s2
             end).
  assert (H2 : trace s2 = trace s1 /\ nextStartTimeRef s2 = nextStartTimeRef s1
               /\ audioSourcesRef s2 = audioSourcesRef s1).
  { subst s2. destruct (inputTranscription m); [apply onInputTranscription_frame | tauto]. }
  assert (H3 : trace s3 = trace s2 /\ nextStartTimeRef s3 = nextStartTimeRef s2
               /\ audioSourcesRef s3 = audioSourcesRef s2).
  { subst s3. destruct (outputTranscription m);
      [apply onOutputTranscription_frame | tauto]. }
  assert (H4 : forall s4, s4 = (if turnComplete m then onTurnComplete render now s3 else s3) ->
               scheduled (trace s4) = scheduled (trace s1)
               /\ nextStartTimeRef s4 = nextStartTimeRef s1
               /\ audioSourcesRef s4 = audioSourcesRef s1).
  { intros s4 ->. destruct H2 as (T2 & N2 & A2), H3 as (T3 & N3 & A3).
    destruct (turnComplete m).
    - destruct (onTurnComplete_frame render now s3) as (T4 & N4 & A4).
      rewrite T4, N4, A4, T3, N3, A3, T2, N2, A2. tauto.
    - rewrite T3, N3, A3, T2, N2, A2. tauto. }
  specialize (H4 _ eq_refl). destruct H4 as (T4 & N4 & A4).
  rewrite T4, N4, A4. subst s1.
  destruct (audio m) as [a|]; [| tauto].
  destruct (Js.truthy a && audioContextOutRef s); [| tauto].
  destruct (onAudioChunk_rule a ctxNow s) as (T1 & N1 & A1).
  rewrite T1, N1, A1, scheduled_app. cbn. tauto.
Qed.

Lemma onmessage_not_interrupted (render : State) (m : LiveServerMessage)
  (now ctxNow : Z) (s : State) :
  interrupted m = false ->
  onmessage render m now ctxNow s = before_interrupted render m now ctxNow s.
Proof.
  intros Hi. unfold before_interrupted, onmessage.
  cbn [audio inputTranscription outputTranscription turnComplete interrupted].
  now rewrite Hi.
Qed.

Lemma onmessage_interrupted (render : State) (m : LiveServerMessage)
  (now ctxNow : Z) (s : State) :
  interrupted m = true ->
  onmessage render m now ctxNow s
  = onInterrupted (before_interrupted render m now ctxNow s).
Proof.
  intros Hi. unfold before_interrupted, onmessage.
  cbn [audio inputTranscription outputTranscription turnComplete interrupted].
  now rewrite Hi.
Qed.

(** The invariant of a run of messages none of which is [interrupted]. *)
Lemma run_keeps_buffers_apart (render : State) (ds : list Delivery) (s : State) :
  Forall (fun d => interrupted (delivered d) = false) ds ->
  no_overlap (scheduled (trace s)) ->
  ends_by (nextStartTimeRef s) (scheduled (trace s)) ->
  no_overlap (scheduled (trace (run render ds s)))
  /\ ends_by (nextStartTimeRef (run render ds s)) (scheduled (trace (run render ds s))).
Proof.
  intros Hall. revert s. induction Hall as [| d ds Hd _ IH]; intros s Hno Hend.
  - split; assumption.
  - unfold run. cbn [foldl]. apply IH.
    + rewrite (onmessage_not_interrupted _ _ _ _ _ Hd).
      pose proof (onmessage_schedule render (delivered d) (at_now d) (at_ctx d) s) as Hs.
      cbn zeta in Hs. destruct (plays (delivered d) s) as [a|].
      * destruct Hs as (-> & _ & _).
        eapply no_overlap_snoc; [exact Hno | exact Hend | lia].
      * destruct Hs as (-> & _ & _). exact Hno.
    + rewrite (onmessage_not_interrupted _ _ _ _ _ Hd).
      pose proof (onmessage_schedule render (delivered d) (at_now d) (at_ctx d) s) as Hs.
      cbn zeta in Hs. destruct (plays (delivered d) s) as [a|].
      * destruct Hs as (-> & -> & _).
        eapply no_overlap_snoc; [exact Hno | exact Hend | lia].
      * destruct Hs as (-> & -> & _). exact Hend.
Qed.

Lemma scheduled_durations (render : State) (ds : list Delivery) (s : State) :
  (forall a, 0 <= duration (decodeAudioData a)) ->
  Forall (fun d => interrupted (delivered d) = false) ds ->
  Forall (fun p => 0 <= snd p) (scheduled (trace s)) ->
  Forall (fun p => 0 <= snd p) (scheduled (trace (run render ds s))).
Proof.
  intros Hdur Hall. revert s. induction Hall as [| d ds Hd _ IH]; intros s Hs.
  - exact Hs.
  - unfold run. cbn [foldl]. apply IH.
    rewrite (onmessage_not_interrupted _ _ _ _ _ Hd).
    pose proof (onmessage_schedule render (delivered d) (at_now d) (at_ctx d) s) as Hm.
    cbn zeta in Hm. destruct (plays (delivered d) s) as [a|].
    + destruct Hm as (-> & _ & _). apply Forall_app. split; [exact Hs |].
      constructor; [apply Hdur | constructor].
    + destruct Hm as (-> & _ & _). exact Hs.
Qed.

(** C4: each audio chunk starts at [max(nextStartTime, outputClockNow)]
    and the cursor then advances by the chunk's duration; so over any run
    of messages without an interruption the scheduled chunks do not
    overlap (each starts at or after the start plus the duration of the
    one before) and, durations being non-negative, their start times never
    decrease.  Times are in sample frames of the output context. *)
Theorem audio_chunks_are_scheduled_back_to_back
  (render : State) (ds : list Delivery) (s : State) :
  (forall a, 0 <= duration (decodeAudioData a)) ->
  Forall (fun d => interrupted (delivered d) = false) ds ->
  (forall a now ctxNow st,
      Js.truthy a = true -> audioContextOutRef st = true ->
      let st' := onmessage render (audioChunk a) now ctxNow st in
      let start := Z.max (nextStartTimeRef st) ctxNow in
      trace st' = (trace st ++ [source_start (sourcesCreated st) start
                                  (duration (decodeAudioData a))])%list
      /\ nextStartTimeRef st' = start + duration (decodeAudioData a))
  /\ (forall (i : nat) w d w' d',
        scheduled (trace (run render ds (set_trace [] s))) !! i = Some (w, d) ->
        scheduled (trace (run render ds (set_trace [] s))) !! S i = Some (w', d') ->
        w + d <= w' /\ w <= w').
Proof.
  intros Hdur Hall. split.
  - intros a now ctxNow st Ha Hctx. unfold onmessage, audioChunk.
    cbn [audio inputTranscription outputTranscription turnComplete interrupted].
    rewrite Ha, Hctx. cbn [andb]. split; reflexivity.
  - intros i w d w' d' H1 H2.
    destruct (run_keeps_buffers_apart render ds (set_trace [] s) Hall) as [Hno _].
    + intros j a b c e Hj. discriminate Hj.
    + intros a b Hl. discriminate Hl.
    + pose proof (Hno i w d w' d' H1 H2) as Hle.
      assert (Hd : Forall (fun p => 0 <= snd p)
                     (scheduled (trace (run render ds (set_trace [] s))))).
      { apply scheduled_durations; [exact Hdur | exact Hall | constructor]. }
      pose proof (Forall_lookup_1 _ _ _ _ Hd H1) as Hd1. simpl in Hd1. lia.
Qed.

Lemma trace_stop_all (l : list nat) (s : State) :
  trace (foldl (fun st source => emit (source_stop source) st) s l)
  = (trace s ++ map source_stop l)%list.
Proof.
  revert s. induction l as [| x l IH]; intros s; cbn [foldl map].
  - now rewrite app_nil_r.
  - rewrite IH. cbn. now rewrite <- app_assoc.
Qed.

Lemma trace_onInterrupted (s : State) :
  trace (onInterrupted s)
  = (trace s ++ map source_stop (elements (audioSourcesRef s)))%list.
Proof. unfold onInterrupted. cbn. apply trace_stop_all. Qed.

(** C5: whatever the state of playback, handling [interrupted] stops every
    tracked buffer source (those tracked before the message and the one the
    same message may have added), leaves the tracked set empty and resets
    the cursor [nextStartTime] to zero. *)
Theorem interrupted_stops_and_clears_playback
  (render : State) (m : LiveServerMessage) (now ctxNow : Z) (s : State) :
  interrupted m = true ->
  let tracked := audioSourcesRef (before_interrupted render m now ctxNow s) in
  let s' := onmessage render m now ctxNow s in
  audioSourcesRef s' = ∅
  /\ nextStartTimeRef s' = 0
  /\ audioSourcesRef s ⊆ tracked
  /\ trace s' = (trace (before_interrupted render m now ctxNow s)
                 ++ map source_stop (elements tracked))%list
  /\ (forall i, i ∈ tracked -> In (source_stop i) (trace s')).
Proof.
  intros Hi. cbn zeta. rewrite (onmessage_interrupted _ _ _ _ _ Hi).
  split; [reflexivity |]. split; [reflexivity |]. split.
  - pose proof (onmessage_schedule render m now ctxNow s) as Hs. cbn zeta in Hs.
    destruct (plays m s); destruct Hs as (_ & _ & ->); set_solver.
  - split; [apply trace_onInterrupted |].
    intros i Hin. rewrite trace_onInterrupted. apply in_or_app. right.
    apply in_map. apply list_elem_of_In. now apply elem_of_elements.
Qed.

Lemma onmessage_interruptedEvent (render : State) (now ctxNow : Z) (s : State) :
  onmessage render interruptedEvent now ctxNow s = onInterrupted s.
Proof. reflexivity. Qed.

End Playback.

(** ** The remote coaching client *)

Section RemoteClient.

Import GeminiService.

Lemma generateAssessment_resolved (remote : Remote) (history : list Message)
  (response : GenerateContentResponse) :
  remote (assessmentRequest history) = Resolved response ->
  generateAssessment remote history =
  match Json.parse (text_or_empty_object response) with
  | Some v => Resolved v
  | None => Rejected (Error "Assessment synthesis failed.")
  end.
Proof. unfold generateAssessment. now intros ->. Qed.

Lemma parse_empty_object : Json.parse "{}" = Some (Json.JObject []).
Proof. reflexivity. Qed.

Lemma parse_empty_text : Json.parse "" = None.
Proof. reflexivity. Qed.

Lemma text_or_empty_object_absent (response : GenerateContentResponse) :
  text response = None \/ text response = Some "" ->
  text_or_empty_object response = "{}".
Proof. unfold text_or_empty_object. now intros [-> | ->]. Qed.

Lemma text_or_empty_object_present (response : GenerateContentResponse) (t : string) :
  text response = Some t -> Js.truthy t = true ->
  text_or_empty_object response = t.
Proof. unfold text_or_empty_object, Js.or_else. now intros -> ->. Qed.

(** C1, as the code has it: [generateAssessment] fails closed on syntax
    only.  When the remote call returns a response, the call rejects with
    [Error("Assessment synthesis failed.")] exactly when the response text
    (an absent or empty text standing for the text of the empty object) is
    not valid JSON; any text that is valid JSON resolves to its parsed
    value, with no check against the report shape; and an absent or empty
    response text resolves to the empty object. *)
Theorem generateAssessment_fails_on_invalid_json_only
  (remote : Remote) (history : list Message) (response : GenerateContentResponse) :
  remote (assessmentRequest history) = Resolved response ->
  (generateAssessment remote history = Rejected (Error "Assessment synthesis failed.")
   <-> Json.parse (text_or_empty_object response) = None)
  /\ (forall v, Json.parse (text_or_empty_object response) = Some v ->
        generateAssessment remote history = Resolved v)
  /\ (forall t, text response = Some t -> Js.truthy t = true ->
        Json.parse t = None ->
        generateAssessment remote history = Rejected (Error "Assessment synthesis failed."))
  /\ (text response = None \/ text response = Some "" ->
        generateAssessment remote history = Resolved (Json.JObject [])).
Proof.
  intros Hr. rewrite (generateAssessment_resolved remote history response Hr).
  split; [| split; [| split]].
  - destruct (Json.parse (text_or_empty_object response)); split; congruence.
  - now intros v ->.
  - intros t Ht Htruthy Hp.
    now rewrite (text_or_empty_object_present response t Ht Htruthy), Hp.
  - intros Habs. now rewrite (text_or_empty_object_absent response Habs).
Qed.

End RemoteClient.

(** ** The assessment pipeline *)

Section Assessment.

Import GeminiService.

Lemma handleTriggerAssessment_run_rejected
  (history : list Message) (e : Exn) (spoken : option string) (s : State) :
  handleTriggerAssessment_run history (Rejected e) spoken s
  = assessment_failed (handleTriggerAssessment history s).
Proof. reflexivity. Qed.

(** C8: when the assessment synthesis call fails, the coordinator, which
    had entered [ASSESSING], is back in [CHATTING]; the failure notice
    "Assessment synthesis failed." is shown; the stored report and the
    message list are what they were before the call; and the loading flag
    and the timer gate leave the user free to ask again.  So it is for a
    rejected promise in general and for a response that is not valid JSON
    in particular. *)
Theorem failed_assessment_reverts_to_chatting
  (history : list Message) (e : Exn) (spoken : option string) (s : State) :
  appState (handleTriggerAssessment history s) = ASSESSING
  /\ (let s' := handleTriggerAssessment_run history (Rejected e) spoken s in
      appState s' = CHATTING
      /\ trace s' = (trace s ++ [call_generateAssessment history;
                                 console_error "Assessment error:";
                                 alert "Assessment synthesis failed."])%list
      /\ report s' = report s
      /\ messages s' = messages s
      /\ isLoading s' = false
      /\ canRequestAssessment s' = canRequestAssessment s)
  /\ (forall (remote : Remote) response,
        remote (assessmentRequest history) = Resolved response ->
        Json.parse (text_or_empty_object response) = None ->
        let s' := handleTriggerAssessment_run history
                    (generateAssessment remote history) spoken s in
        appState s' = CHATTING /\ report s' = report s
        /\ messages s' = messages s /\ isLoading s' = false
        /\ In (alert "Assessment synthesis failed.") (trace s')).
Proof.
  split; [reflexivity |]. split.
  - cbn zeta. rewrite handleTriggerAssessment_run_rejected. cbn.
    rewrite <- !app_assoc. repeat split.
  - intros remote response Hr Hp. cbn zeta.
    rewrite (generateAssessment_resolved remote history response Hr), Hp.
    rewrite handleTriggerAssessment_run_rejected. cbn.
    repeat split. apply in_or_app. right. now left.
Qed.

(** A report delivered without a readout: the speech payload is absent. *)
Lemma report_is_delivered_without_audio
  (history : list Message) (assessment : Json.Value) (summary : option Json.Value)
  (s : State) :
  read_summary assessment = Resolved summary ->
  let s' := handleTriggerAssessment_run history (Resolved assessment) None s in
  appState s' = REPORT /\ report s' = Some assessment /\ isLoading s' = false
  /\ trace s' = (trace s ++ [call_generateAssessment history;
                             call_generateSpeech summary])%list.
Proof.
  intros Hsum. cbn zeta.
  assert (Hn : nullable assessment = Some assessment).
  { destruct assessment; try reflexivity. discriminate Hsum. }
  unfold handleTriggerAssessment_run, handleTriggerAssessment_assessed.
  rewrite Hsum, Hn. cbn. rewrite <- !app_assoc. repeat split.
Qed.


End Assessment.

(** ** The text turn and the turn boundary *)

Section Turns.

Context `{AudioUtils}.

#[local] Arguments stopLiveSession : simpl never.
#[local] Arguments matchesTrigger : simpl never.
#[local] Arguments canRequestAssessment : simpl never.

(** Whether a sent text is handed to the assessment: the phrase test and
    the timer gate of the render, together. *)
Lemma handleSendMessage_redirects (t : string) (now : Z) (s : State) :
  chatRef s = true -> Js.truthy (Js.trim t) = true ->
  appState (handleSendMessage t false now s)
  = (if matchesTrigger t && canRequestAssessment s then ASSESSING else appState s)
  /\ messages (handleSendMessage t false now s) = (messages s ++ [userMessage t now])%list
  /\ input (handleSendMessage t false now s) = "".
Proof.
  intros Hchat Htrim. unfold handleSendMessage. rewrite Hchat, Htrim. cbn.
  destruct (matchesTrigger t && canRequestAssessment s);
    destruct (isRecording s); destruct (sessionStartTime s) as [t0|];
    try destruct (t0 =? 0)%Z; repeat split.
Qed.

Lemma onTurnComplete_redirects (render : State) (now : Z) (s : State) :
  appState (onTurnComplete render now s)
  = (if matchesTrigger (buf_user (transcriptionBufferRef s))
        && canRequestAssessment render
     then ASSESSING else appState s).
Proof.
  unfold onTurnComplete. cbn zeta. rewrite matchesTrigger_guard.
  destruct (matchesTrigger (buf_user (transcriptionBufferRef s))
            && canRequestAssessment render);
    destruct (Js.truthy (buf_user (transcriptionBufferRef s))); cbn;
    try reflexivity;
    unfold stopLiveSession;
    destruct (liveSessionRef _); cbn; destruct (audioContextInRef s); cbn;
    destruct (audioContextOutRef s); reflexivity.
Qed.

Lemma buffer_stop_all (l : list nat) (s : State) :
  transcriptionBufferRef (foldl (fun st source => emit (source_stop source) st) s l)
  = transcriptionBufferRef s.
Proof.
  revert s. induction l as [| x l IH]; intros s; [reflexivity |].
  cbn [foldl]. now rewrite IH.
Qed.

(** A text turn: the user's message is appended at once and the input
    cleared; the model's reply is appended when it arrives.  "Hello" holds
    no trigger phrase, so the turn goes to the chat whatever the gate. *)
Theorem text_turn_appends_user_then_model
  (now1 now2 : Z) (reply : string) (s : State) :
  chatRef s = true -> Js.truthy reply = true ->
  let s1 := handleSendMessage "Hello" false now1 s in
  let s2 := handleSendMessage_replied (Resolved (Some reply)) now2 s1 in
  messages s1 = (messages s ++ [userMessage "Hello" now1])%list
  /\ input s1 = ""
  /\ In (chat_sendMessage "Hello") (trace s1)
  /\ messages s2 = (messages s ++ [userMessage "Hello" now1; modelMessage reply now2])%list
  /\ isLoading s2 = false.
Proof.
  intros Hchat Hreply. cbn zeta.
  destruct (handleSendMessage_redirects "Hello" now1 s Hchat eq_refl) as (_ & Hm & Hi).
  split; [exact Hm |]. split; [exact Hi |]. split.
  - unfold handleSendMessage. rewrite Hchat. cbn.
    destruct (isRecording s); destruct (sessionStartTime s) as [t0|];
      try destruct (t0 =? 0)%Z; cbn; apply in_or_app; right; now left.
  - unfold handleSendMessage_replied. cbn. rewrite Hm.
    unfold Js.or_else. rewrite Hreply. rewrite <- app_assoc. split; reflexivity.
Qed.

(** Once the first statement has passed, a message with the [turnComplete]
    flag leaves both buffers empty. *)
Lemma buffers_cleared_by_turnComplete
  (render : State) (m : LiveServerMessage) (now ctxNow : Z) (s : State) :
  turnComplete m = true ->
  transcriptionBufferRef (onmessage render m now ctxNow s) = cleared.
Proof.
  intros Htc. unfold onmessage. rewrite Htc.
  destruct (interrupted m); [| reflexivity].
  unfold onInterrupted. cbn. now rewrite buffer_stop_all.
Qed.

(** X1: a delivered message with the [turnComplete] flag leaves both
    transcription buffers empty, the user buffer empty or not and whatever
    else the message carries, as long as the first statement of the
    callback does not throw; when it does, for a model turn without
    [parts], the turn boundary is lost: the state, buffers included, is
    what it was. *)
Theorem turnComplete_clears_buffers_unless_the_audio_read_throws
  (render : State) (w : Wire.ServerMessage) (now ctxNow : Z) (s : State) :
  Wire.turnComplete w = true ->
  (Wire.modelTurn w <> Some Wire.without_parts ->
     transcriptionBufferRef (onmessage_delivered render w now ctxNow s) = cleared)
  /\ (Wire.modelTurn w = Some Wire.without_parts ->
      onmessage_delivered render w now ctxNow s = s).
Proof.
  intros Htc. unfold onmessage_delivered, read_audio. split.
  - intros Hparts.
    destruct (Wire.modelTurn w) as [[| first_data] |];
      [now destruct Hparts | |];
      now apply buffers_cleared_by_turnComplete.
  - now intros ->.
Qed.

End Turns.

(** ** Scenarios: the theorems at concrete inputs *)

Section Scenarios.

Import GeminiService.

Local Open Scope Z_scope.

(** A decoder for the scenarios: one frame per character of the payload. *)
Definition frame_per_char : AudioUtils :=
{| decodeAudioData := fun a => {| duration := Z.of_nat (String.length a) |} |}.

(** A live session a second after mount: output context open, a model
    message on the timeline, the user's words buffered. *)
Definition live_state : State :=
set_transcriptionBufferRef {| buf_user := "what is this"; buf_model := "Hello!" |}
  (set_messages [modelMessage "Hello!" 500]
     (set_audioContextOutRef true (set_isLive true (initial 1000)))).

Definition quiet_state : State :=
set_transcriptionBufferRef {| buf_user := ""; buf_model := "Hello!" |} live_state.

Definition playing_state : State :=
set_nextStartTimeRef 48000 (set_audioSourcesRef {[ 0%nat; 1%nat ]} live_state).

(** The remote service answering every request with one response. *)
Definition always (response : GenerateContentResponse) : Remote :=
client (fun _ => Resolved response).

Definition text_response (t : string) : GenerateContentResponse :=
{| text := Some t; candidates := None |}.

(** The claim C1 as the specification words it: a response whose text
    does not parse into the report shape makes the call fail. *)
Definition parses_to_report (t : string) : Prop :=
exists v, Json.parse t = Some v /\ is_AssessmentReport v = true.

Definition fails_closed_on_shape (remote : Remote) (history : list Message) : Prop :=
forall response t,
  remote (assessmentRequest history) = Resolved response ->
  text response = Some t ->
  ~ parses_to_report t ->
  exists e, generateAssessment remote history = Rejected e.

(** C1 fails at an empty response text: the text is not JSON at all, yet
    the call resolves, to the empty object, which has none of the required
    report fields. *)
Lemma generateAssessment_empty_text_gives_empty_object :
  Json.parse "" = None
  /\ generateAssessment (always (text_response "")) [] = Resolved (Json.JObject [])
  /\ has_required_fields (Json.JObject []) = false
  /\ is_AssessmentReport (Json.JObject []) = false
  /\ ~ fails_closed_on_shape (always (text_response "")) [].
Proof.
  split; [reflexivity |]. split; [reflexivity |].
  split; [reflexivity |]. split; [reflexivity |].
  intros Hclaim.
  destruct (Hclaim (text_response "") "" eq_refl eq_refl) as [e He].
  - intros [v [Hv _]]. discriminate Hv.
  - discriminate He.
Qed.

(** Valid JSON of another shape is returned as well. *)
Example generateAssessment_returns_any_json :
  generateAssessment (always (text_response "[1, 2]")) []
  = Resolved (Json.JArray [Json.JNumber (Json.units "1"); Json.JNumber (Json.units "2")])
  /\ is_AssessmentReport
       (Json.JArray [Json.JNumber (Json.units "1"); Json.JNumber (Json.units "2")]) = false.
Proof. split; reflexivity. Qed.

Lemma generateAssessment_rejects_malformed_text :
  generateAssessment (always (text_response "{ overallScore: ")) []
  = Rejected (Error "Assessment synthesis failed.").
Proof.
  exact (proj1 (proj2 (proj2
    (generateAssessment_fails_on_invalid_json_only
       (always (text_response "{ overallScore: ")) []
       (text_response "{ overallScore: ") eq_refl)))
    "{ overallScore: " eq_refl eq_refl eq_refl).
Defined.

Lemma turnComplete_flushes_what_is_this :
  messages (@onmessage frame_per_char live_state turnCompleteEvent 2000 0 live_state)
  = [userMessage "what is this" 2000; modelMessage "Hello!" 500].
Proof.
  exact (@turnComplete_flushes_user_before_model frame_per_char
           live_state 2000 0 live_state [] (modelMessage "Hello!" 500)
           eq_refl eq_refl eq_refl).
Defined.

Lemma turnComplete_quiet_turn :
  messages (@onmessage frame_per_char quiet_state turnCompleteEvent 2000 0 quiet_state)
  = [modelMessage "Hello!" 500].
Proof.
  exact (proj2 (@turnComplete_with_empty_transcript_only_clears_buffers
                  frame_per_char quiet_state 2000 0 quiet_state eq_refl)).
Defined.

Definition two_chunks : list Delivery :=
[ {| delivered := audioChunk "AAAA"; at_now := 2000; at_ctx := 10 |};
  {| delivered := audioChunk "BBBBBB"; at_now := 2001; at_ctx := 12 |} ].

Lemma two_chunks_back_to_back :
  scheduled (trace (@run frame_per_char live_state two_chunks (set_trace [] live_state)))
  = [(10, 4); (14, 6)]
  /\ (10 + 4 <= 14 /\ 10 <= 14).
Proof.
  split; [reflexivity |].
  refine (proj2 (@audio_chunks_are_scheduled_back_to_back frame_per_char
                   live_state two_chunks live_state _ _) 0%nat 10 4 14 6 eq_refl eq_refl).
  - intros a. apply Nat2Z.is_nonneg.
  - repeat constructor.
Defined.

Lemma interrupted_clears_two_sources :
  audioSourcesRef (@onmessage frame_per_char live_state interruptedEvent 2000 10
                     playing_state) = ∅
  /\ nextStartTimeRef (@onmessage frame_per_char live_state interruptedEvent 2000 10
                         playing_state) = 0.
Proof.
  pose proof (@interrupted_stops_and_clears_playback frame_per_char
                live_state interruptedEvent 2000 10 playing_state eq_refl) as Hc.
  exact (conj (proj1 Hc) (proj1 (proj2 Hc))).
Defined.

(** Both sources are stopped, each once (in the order of the set's
    elements, which for the platform's [Set] is the order of insertion). *)
Example interrupted_stops_both :
  stopped (trace (@onmessage frame_per_char live_state interruptedEvent 2000 10
                    playing_state)) ≡ₚ [0%nat; 1%nat].
Proof. vm_compute. apply perm_swap. Qed.

Example hi_there_is_one_message :
  messages (@run frame_per_char live_state (hi_there 2000 0 2001 0)
              (set_messages [userMessage "Bonjour" 1500]
                 (set_transcriptionBufferRef cleared live_state)))
  = [userMessage "Bonjour" 1500; modelMessage "Hi there" 2000].
Proof. reflexivity. Qed.

(** A live session beside an open chat, at the start of a model turn. *)
Definition chat_and_voice : State :=
set_chatRef true
  (set_messages [] (set_transcriptionBufferRef cleared live_state)).

(** The model has begun its turn with "Hello" and, before the turn is
    complete, the user has typed "ok" and pressed Enter. *)
Definition typed_mid_turn : State :=
handleSendMessage "ok" false 1600
  (@onmessage frame_per_char chat_and_voice (outputTranscriptionEvent "Hello")
     1500 0 chat_and_voice).

(** C3, the code at the failing input: the timeline ends in the user's
    message and the model buffer still holds the "Hello" of the turn that
    was not completed, nothing but [turnComplete] clearing it.  The first
    delta is appended as it is, "Hi"; the second replaces that message by
    the whole buffer: the two deltas leave one more message, a model
    message, holding "HelloHi there" and not "Hi there". *)
Lemma typed_message_mid_turn_keeps_old_buffer :
  messages typed_mid_turn = [modelMessage "Hello" 1500; userMessage "ok" 1600]
  /\ ends_in_model (messages typed_mid_turn) = false
  /\ buf_model (transcriptionBufferRef typed_mid_turn) = "Hello"
  /\ messages (@onmessage frame_per_char chat_and_voice (outputTranscriptionEvent "Hi")
                 2000 0 typed_mid_turn)
     = [modelMessage "Hello" 1500; userMessage "ok" 1600; modelMessage "Hi" 2000]
  /\ messages (@run frame_per_char chat_and_voice (hi_there 2000 0 2001 0) typed_mid_turn)
     = [modelMessage "Hello" 1500; userMessage "ok" 1600;
        modelMessage "HelloHi there" 2000]
  /\ messages (@run frame_per_char chat_and_voice (hi_there 2000 0 2001 0) typed_mid_turn)
     <> (messages typed_mid_turn ++ [modelMessage "Hi there" 2000])%list.
Proof.
  split; [reflexivity |]. split; [reflexivity |]. split; [reflexivity |].
  split; [reflexivity |]. split; [reflexivity |]. intros Heq. discriminate Heq.
Qed.

Lemma text_turn_hello :
  messages (handleSendMessage_replied (Resolved (Some "Bonjour !")) 1200
              (handleSendMessage "Hello" false 1100 (set_chatRef true (initial 1000))))
  = [userMessage "Hello" 1100; modelMessage "Bonjour !" 1200].
Proof.
  exact (proj1 (proj2 (proj2 (proj2
    (text_turn_appends_user_then_model 1100 1200 "Bonjour !"
       (set_chatRef true (initial 1000)) eq_refl eq_refl))))).
Defined.

(** The end of a turn as delivered, with the last chunk of its audio. *)
Definition last_chunk_and_turnComplete : Wire.ServerMessage :=
{| Wire.modelTurn := Some (Wire.with_parts (Some "AAAA"));
   Wire.inputTranscription := None;
   Wire.outputTranscription := None;
   Wire.turnComplete := true;
   Wire.interrupted := false |}.

(** The same flag beside a model turn that has no parts. *)
Definition turnComplete_without_parts : Wire.ServerMessage :=
{| Wire.modelTurn := Some Wire.without_parts;
   Wire.inputTranscription := None;
   Wire.outputTranscription := None;
   Wire.turnComplete := true;
   Wire.interrupted := false |}.

Lemma turnComplete_clears_buffers_of_live_state :
  transcriptionBufferRef
    (@onmessage_delivered frame_per_char live_state last_chunk_and_turnComplete
       2000 0 live_state)
  = cleared.
Proof.
  exact (proj1 (@turnComplete_clears_buffers_unless_the_audio_read_throws
                  frame_per_char live_state last_chunk_and_turnComplete 2000 0
                  live_state eq_refl) ltac:(discriminate)).
Defined.

Example turnComplete_is_lost_without_parts :
  transcriptionBufferRef
    (@onmessage_delivered frame_per_char live_state turnComplete_without_parts
       2000 0 live_state)
  = {| buf_user := "what is this"; buf_model := "Hello!" |}.
Proof. reflexivity. Qed.

End Scenarios.

(** * Further coverage of the coordinator

    The rest of [handleSendMessage], of the live callback and of the
    assessment pipeline, and the functions around them. *)

(** ** Blank texts *)

(** A text of white space only (the empty text included). *)
Fixpoint blank (t : string) : bool :=
match t with
| EmptyString => true
| String c r => Js.is_space c && blank r
end.

(** The event that carries a delta of the user's transcription. *)
Definition inputTranscriptionEvent (t : string) : LiveServerMessage :=
{| audio := None; inputTranscription := Some t; outputTranscription := None;
   turnComplete := false; interrupted := false |}.

Section BlankTexts.

Lemma trimEnd_keeps_head (c : ascii) (r : string) :
  Js.is_space c = false -> Js.truthy (Js.trimEnd (String c r)) = true.
Proof.
  intros Hc. cbn [Js.trimEnd]. destruct (Js.trimEnd r); [now rewrite Hc | reflexivity].
Qed.

Lemma trim_blank (t : string) : Js.truthy (Js.trim t) = negb (blank t).
Proof.
  unfold Js.trim. induction t as [| c r IH]; [reflexivity |].
  cbn [Js.trimStart blank]. destruct (Js.is_space c) eqn:Hc.
  - exact IH.
  - now rewrite (trimEnd_keeps_head c r Hc).
Qed.

Lemma lower_unit_space (c : ascii) : Js.is_space (Js.lower_unit c) = Js.is_space c.
Proof. destruct c as [[] [] [] [] [] [] [] []]; reflexivity. Qed.

Lemma blank_toLowerCase (t : string) : blank (Js.toLowerCase t) = blank t.
Proof.
  induction t as [| c r IH]; [reflexivity |].
  cbn [Js.toLowerCase blank]. now rewrite lower_unit_space, IH.
Qed.

Lemma blank_app (a b : string) : blank (a ++ b) = blank a && blank b.
Proof.
  induction a as [| c r IH]; [reflexivity |].
  cbn [String.append blank]. now rewrite IH, andb_assoc.
Qed.

(** A text that holds a trigger phrase is not blank: the guard on blank
    texts never hides a request for the assessment. *)
Lemma matchesTrigger_not_blank (t : string) :
  matchesTrigger t = true -> blank t = false.
Proof.
  intros Hm. apply matchesTrigger_spec in Hm as (k & pre & post & Hk & Heq).
  rewrite <- blank_toLowerCase, Heq, !blank_app.
  assert (Hkb : blank k = false).
  { cbn in Hk. destruct Hk as [<- | [<- | [<- | []]]]; reflexivity. }
  rewrite Hkb. now rewrite andb_false_r.
Qed.

End BlankTexts.

(** ** Routing of a sent text *)

Section Routing.

#[local] Arguments matchesTrigger : simpl never.
#[local] Arguments canRequestAssessment : simpl never.

(** The part of the trace a step has added. *)
Definition added (before after : State) : list Effect :=
drop (length (trace before)) (trace after).

Lemma added_app (s s' : State) (l : list Effect) :
  trace s' = (trace s ++ l)%list -> added s s' = l.
Proof. unfold added. intros ->. now rewrite drop_app_length. Qed.

(** What [handleSendMessage] adds to the trace before it hands over:
    [recognition.stop()] when the microphone was recording. *)
Definition stop_if_recording (s : State) : list Effect :=
if isRecording s then [recognition_stop] else [].

Lemma handleSendMessage_trace (t : string) (now : Z) (s : State) :
  chatRef s = true -> blank t = false ->
  trace (handleSendMessage t false now s)
  = (trace s ++ stop_if_recording s
       ++ [if matchesTrigger t && canRequestAssessment s
           then call_generateAssessment (messages s ++ [userMessage t now])
           else chat_sendMessage t])%list.
Proof.
  intros Hchat Hb. unfold handleSendMessage, stop_if_recording.
  rewrite Hchat, trim_blank, Hb. cbn.
  destruct (matchesTrigger t && canRequestAssessment s);
    destruct (isRecording s); destruct (sessionStartTime s) as [t0|];
    try destruct (t0 =? 0)%Z; cbn; rewrite <- ?app_assoc; reflexivity.
Qed.

(** X3: a text of white space only, or any text while no chat session is
    open, is dropped: the state, the timeline and the trace stay as they
    are. *)
Theorem handleSendMessage_drops_blank_and_chatless
  (t : string) (now : Z) (s : State) :
  (blank t = true -> handleSendMessage t false now s = s)
  /\ (forall isInitial, chatRef s = false -> handleSendMessage t isInitial now s = s).
Proof.
  split.
  - intros Hb. unfold handleSendMessage. now rewrite trim_blank, Hb.
  - intros isInitial Hchat. unfold handleSendMessage. rewrite Hchat.
    now destruct (negb (Js.truthy (Js.trim t)) && negb isInitial).
Qed.

(** X4: with a chat open, a text that holds a trigger phrase while the
    timer gate is open is handed to the assessment and not to the chat:
    the state becomes [ASSESSING], the history handed over is the
    timeline with the new user message at its end, and no chat request is
    made.  Such a text is never blank, so it is never dropped. *)
Theorem sent_trigger_with_open_gate_starts_assessment
  (t : string) (now : Z) (s : State) :
  chatRef s = true -> matchesTrigger t = true -> canRequestAssessment s = true ->
  let s' := handleSendMessage t false now s in
  appState s' = ASSESSING
  /\ isLoading s' = true
  /\ messages s' = (messages s ++ [userMessage t now])%list
  /\ added s s' = (stop_if_recording s
                   ++ [call_generateAssessment (messages s ++ [userMessage t now])])%list
  /\ ~ In (chat_sendMessage t) (added s s').
Proof.
  intros Hchat Hm Hgate. cbn zeta.
  pose proof (matchesTrigger_not_blank t Hm) as Hb.
  pose proof (handleSendMessage_trace t now s Hchat Hb) as Ht.
  rewrite Hm, Hgate in Ht. cbn [andb] in Ht.
  assert (Hblank : Js.truthy (Js.trim t) = true) by now rewrite trim_blank, Hb.
  destruct (handleSendMessage_redirects t now s Hchat Hblank) as (Ha & Hmsg & _).
  rewrite Hm, Hgate in Ha. cbn [andb] in Ha.
  split; [exact Ha |]. split.
  - unfold handleSendMessage. rewrite Hchat, Hblank, Hm, Hgate. cbn.
    destruct (isRecording s); destruct (sessionStartTime s) as [t0|];
      try destruct (t0 =? 0)%Z; reflexivity.
  - split; [exact Hmsg |]. rewrite (added_app _ _ _ Ht). split; [reflexivity |].
    unfold stop_if_recording. destruct (isRecording s); cbn; intros Hin;
      repeat (destruct Hin as [Hin | Hin]; [discriminate Hin |]); exact Hin.
Qed.

(** X5: with a chat open and the timer gate closed, every text that is
    not blank goes to the chat, a trigger phrase included: the user
    message is appended, the input cleared, one chat request made with the
    text as typed, and no assessment is started. *)
Theorem sent_text_with_closed_gate_goes_to_chat
  (t : string) (now : Z) (s : State) :
  chatRef s = true -> blank t = false -> canRequestAssessment s = false ->
  let s' := handleSendMessage t false now s in
  appState s' = appState s
  /\ isLoading s' = true
  /\ messages s' = (messages s ++ [userMessage t now])%list
  /\ input s' = ""
  /\ added s s' = (stop_if_recording s ++ [chat_sendMessage t])%list.
Proof.
  intros Hchat Hb Hgate. cbn zeta.
  pose proof (handleSendMessage_trace t now s Hchat Hb) as Ht.
  rewrite Hgate, andb_false_r in Ht.
  assert (Hblank : Js.truthy (Js.trim t) = true) by now rewrite trim_blank, Hb.
  destruct (handleSendMessage_redirects t now s Hchat Hblank) as (Ha & Hmsg & Hin).
  rewrite Hgate, andb_false_r in Ha.
  split; [exact Ha |]. split.
  - unfold handleSendMessage. rewrite Hchat, Hblank, Hgate, andb_false_r. cbn.
    destruct (isRecording s); destruct (sessionStartTime s) as [t0|];
      try destruct (t0 =? 0)%Z; reflexivity.
  - split; [exact Hmsg |]. split; [exact Hin |]. exact (added_app _ _ _ Ht).
Qed.

End Routing.

(** ** The reply of the chat and the end of the assessment pipeline *)

Section Settling.

(** X6: when the chat request settles the loading flag is cleared, however
    it settles.  A failed request leaves the timeline as it is (the user's
    message stays, no model message is added) and is reported on the
    console only; a reply with no text, or with an empty text, is shown as
    "...". *)
Theorem chat_reply_settles_the_turn (now : Z) (s : State) :
  (forall reply, isLoading (handleSendMessage_replied reply now s) = false)
  /\ (forall e,
        messages (handleSendMessage_replied (Rejected e) now s) = messages s
        /\ trace (handleSendMessage_replied (Rejected e) now s)
           = (trace s ++ [console_error "Chat error:"])%list
        /\ appState (handleSendMessage_replied (Rejected e) now s) = appState s)
  /\ (forall t, t = None \/ t = Some "" ->
        messages (handleSendMessage_replied (Resolved t) now s)
        = (messages s ++ [modelMessage "..." now])%list)
  /\ (forall t, Js.truthy t = true ->
        messages (handleSendMessage_replied (Resolved (Some t)) now s)
        = (messages s ++ [modelMessage t now])%list).
Proof.
  split; [| split; [| split]].
  - intros [t | e]; reflexivity.
  - intros e. repeat split.
  - intros t [-> | ->]; reflexivity.
  - intros t Ht. unfold handleSendMessage_replied, Js.or_else. now rewrite Ht.
Qed.

Lemma nullable_read (v : Json.Value) (summary : option Json.Value) :
  read_summary v = Resolved summary -> nullable v = Some v.
Proof. destruct v; try reflexivity. discriminate. Qed.

Lemma handleTriggerAssessment_run_read
  (history : list Message) (v : Json.Value) (summary : option Json.Value)
  (spoken : option string) (s : State) :
  read_summary v = Resolved summary ->
  handleTriggerAssessment_run history (Resolved v) spoken s
  = handleTriggerAssessment_spoken spoken
      (emit (call_generateSpeech summary)
         (set_appState REPORT
            (set_report (Some v) (handleTriggerAssessment history s)))).
Proof.
  intros Hs. unfold handleTriggerAssessment_run, handleTriggerAssessment_assessed.
  now rewrite Hs, (nullable_read v summary Hs).
Qed.

Lemma handleTriggerAssessment_run_unread
  (history : list Message) (v : Json.Value) (e : Exn)
  (spoken : option string) (s : State) :
  read_summary v = Rejected e ->
  handleTriggerAssessment_run history (Resolved v) spoken s
  = assessment_failed
      (set_appState REPORT
         (set_report (nullable v) (handleTriggerAssessment history s))).
Proof.
  intros Hs. unfold handleTriggerAssessment_run, handleTriggerAssessment_assessed.
  now rewrite Hs.
Qed.

(** When reading the summary into the readout text throws. *)
Lemma read_summary_rejects (v : Json.Value) :
  (exists e, read_summary v = Rejected e)
  <-> v = Json.JNull
      \/ exists fields summary,
           v = Json.JObject fields
           /\ Json.lookup_field (Json.units "summary") fields = Some summary
           /\ toString_throws summary = true.
Proof.
  split.
  - intros [e He]. destruct v as [| b | n | t | items | fields];
      try discriminate He; [now left |]. right.
    unfold read_summary in He.
    destruct (Json.lookup_field (Json.units "summary") fields) as [summary|] eqn:Hl;
      [| discriminate He].
    destruct (toString_throws summary) eqn:Ht; [| discriminate He].
    now exists fields, summary.
  - intros [-> | (fields & summary & -> & Hl & Ht)].
    + eexists. reflexivity.
    + unfold read_summary. rewrite Hl, Ht. eexists. reflexivity.
Qed.

Lemma handleTriggerAssessment_spoken_frame (spoken : option string) (s : State) :
  isLoading (handleTriggerAssessment_spoken spoken s) = false
  /\ messages (handleTriggerAssessment_spoken spoken s) = messages s
  /\ appState (handleTriggerAssessment_spoken spoken s) = appState s
  /\ report (handleTriggerAssessment_spoken spoken s) = report s.
Proof.
  unfold handleTriggerAssessment_spoken.
  destruct spoken as [a|]; [destruct (Js.truthy a) |]; repeat split.
Qed.

(** A rejected speech promise ends the pipeline like a failed assessment,
    the report that was stored left in place. *)
Lemma rejected_speech_settles (e : Exn) (s : State) :
  let s' := handleTriggerAssessment_settled (Rejected e) s in
  isLoading s' = false /\ messages s' = messages s
  /\ appState s' = CHATTING /\ report s' = report s.
Proof. repeat split. Qed.

(** X7: however the two promises of the assessment pipeline settle, the
    pipeline ends with the loading flag cleared, the timeline untouched
    and the coordinator in [CHATTING] or [REPORT], never left in
    [ASSESSING]. *)
Theorem assessment_pipeline_always_settles
  (history : list Message) (assessed : Outcome Json.Value)
  (spoken : option string) (s : State) :
  let s' := handleTriggerAssessment_run history assessed spoken s in
  isLoading s' = false
  /\ messages s' = messages s
  /\ (appState s' = CHATTING \/ appState s' = REPORT).
Proof.
  cbn zeta. destruct assessed as [v | e].
  - destruct (read_summary v) as [summary | e] eqn:Hs.
    + rewrite (handleTriggerAssessment_run_read history v summary spoken s Hs).
      destruct (handleTriggerAssessment_spoken_frame spoken
                  (emit (call_generateSpeech summary)
                     (set_appState REPORT
                        (set_report (Some v) (handleTriggerAssessment history s)))))
        as (-> & -> & -> & _).
      repeat split. now right.
    + rewrite (handleTriggerAssessment_run_unread history v e spoken s Hs).
      repeat split. now left.
  - repeat split. now left.
Qed.

(** X8: the coordinator ends in [REPORT] exactly when the assessment call
    resolves to a value whose summary can be read into the readout text:
    a value other than JSON [null] whose [summary] member, if it has one,
    converts to a string.  Such a value is stored as the report whatever
    its shape (the empty object included).  Where the read throws, the
    call ends like a failed one, in [CHATTING] with the failure notice:
    with no report when the value is [null], and with the value left
    stored as the report when its summary does not convert, the report
    having been set before the text is built. *)
Theorem parsed_value_is_shown_as_report_when_its_summary_reads
  (history : list Message) (spoken : option string) (s : State) :
  (forall assessed,
      appState (handleTriggerAssessment_run history assessed spoken s) = REPORT
      <-> exists v summary, assessed = Resolved v /\ read_summary v = Resolved summary)
  /\ (forall v summary, read_summary v = Resolved summary ->
        report (handleTriggerAssessment_run history (Resolved v) spoken s) = Some v)
  /\ report (handleTriggerAssessment_run history (Resolved (Json.JObject [])) spoken s)
     = Some (Json.JObject [])
  /\ (forall v,
        (exists e, read_summary v = Rejected e)
        <-> v = Json.JNull
            \/ exists fields summary,
                 v = Json.JObject fields
                 /\ Json.lookup_field (Json.units "summary") fields = Some summary
                 /\ toString_throws summary = true)
  /\ (forall v e, read_summary v = Rejected e ->
        let s' := handleTriggerAssessment_run history (Resolved v) spoken s in
        appState s' = CHATTING /\ report s' = nullable v
        /\ In (alert "Assessment synthesis failed.") (trace s')).
Proof.
  assert (Hres : forall v summary, read_summary v = Resolved summary ->
            appState (handleTriggerAssessment_run history (Resolved v) spoken s) = REPORT
            /\ report (handleTriggerAssessment_run history (Resolved v) spoken s) = Some v).
  { intros v summary Hs.
    rewrite (handleTriggerAssessment_run_read history v summary spoken s Hs).
    destruct (handleTriggerAssessment_spoken_frame spoken
                (emit (call_generateSpeech summary)
                   (set_appState REPORT
                      (set_report (Some v) (handleTriggerAssessment history s)))))
      as (_ & _ & -> & ->).
    split; reflexivity. }
  split; [| split; [| split; [| split]]].
  - intros assessed. split.
    + destruct assessed as [v | e]; [| discriminate].
      destruct (read_summary v) as [summary | e] eqn:Hs.
      * intros _. now exists v, summary.
      * rewrite (handleTriggerAssessment_run_unread history v e spoken s Hs).
        discriminate.
    + intros (v & summary & -> & Hs). exact (proj1 (Hres v summary Hs)).
  - intros v summary Hs. exact (proj2 (Hres v summary Hs)).
  - exact (proj2 (Hres (Json.JObject []) None eq_refl)).
  - exact read_summary_rejects.
  - intros v e Hs. cbn zeta.
    rewrite (handleTriggerAssessment_run_unread history v e spoken s Hs).
    cbn. repeat split. apply in_or_app. right. now left.
Qed.

End Settling.

(** ** More of the live callback *)

(** The user's deltas of a turn, each with its clock readings, as
    deliveries. *)
Definition inputDeliveries (ds : list (string * Z * Z)) : list Delivery :=
map (fun d => {| delivered := inputTranscriptionEvent (fst (fst d));
                 at_now := snd (fst d); at_ctx := snd d |}) ds.

Fixpoint concat_texts (ts : list string) : string :=
match ts with
| [] => ""
| t :: r => t ++ concat_texts r
end.

Definition delivery (m : LiveServerMessage) (now ctxNow : Z) : Delivery :=
{| delivered := m; at_now := now; at_ctx := ctxNow |}.

Section LiveMore.

Context `{AudioUtils}.

#[local] Arguments stopLiveSession : simpl never.
#[local] Arguments slice_but_last : simpl never.
#[local] Arguments matchesTrigger : simpl never.
#[local] Arguments canRequestAssessment : simpl never.

Local Open Scope Z_scope.

Lemma run_app (render : State) (a b : list Delivery) (s : State) :
  run render (a ++ b) s = run render b (run render a s).
Proof. unfold run. apply foldl_app. Qed.

Lemma run_cons (render : State) (d : Delivery) (ds : list Delivery) (s : State) :
  run render (d :: ds) s
  = run render ds (onmessage render (delivered d) (at_now d) (at_ctx d) s).
Proof. reflexivity. Qed.

Lemma append_empty_r (a : string) : a ++ "" = a.
Proof. induction a as [| c r IH]; [reflexivity | cbn; now rewrite IH]. Qed.

Lemma run_inputDeliveries (render : State) (ds : list (string * Z * Z)) (s : State) :
  run render (inputDeliveries ds) s
  = set_transcriptionBufferRef
      {| buf_user := buf_user (transcriptionBufferRef s)
                     ++ concat_texts (map (fun d => fst (fst d)) ds);
         buf_model := buf_model (transcriptionBufferRef s) |} s.
Proof.
  revert s. induction ds as [| d ds IH]; intros s.
  - cbn. rewrite append_empty_r.
    now destruct s as [? ? ? ? ? ? ? ? ? ? ? ? ? ? ? [? ?] ? ?].
  - change (inputDeliveries (d :: ds))
      with ({| delivered := inputTranscriptionEvent (fst (fst d));
               at_now := snd (fst d); at_ctx := snd d |} :: inputDeliveries ds).
    rewrite run_cons, IH. cbn. now rewrite append_assoc.
Qed.

(** X9: the deltas of the user's transcription pile up in the buffer
    without touching the timeline, and [turnComplete] flushes them as one
    user message whose content is the deltas in order, placed before the
    model message that ends the timeline. *)
Theorem input_deltas_are_flushed_as_one_user_message
  (render : State) (ds : list (string * Z * Z)) (now ctxNow : Z) (s : State)
  (prior : list Message) (modelMsg : Message) :
  messages s = (prior ++ [modelMsg])%list ->
  role modelMsg = model ->
  buf_user (transcriptionBufferRef s) = "" ->
  Js.truthy (concat_texts (map (fun d => fst (fst d)) ds)) = true ->
  messages (run render (inputDeliveries ds) s) = messages s
  /\ messages (run render (inputDeliveries ds ++ [delivery turnCompleteEvent now ctxNow]) s)
     = (prior ++ [userMessage (concat_texts (map (fun d => fst (fst d)) ds)) now;
                  modelMsg])%list.
Proof.
  intros Hm Hrole Hbuf Htext. rewrite run_app, run_inputDeliveries, Hbuf.
  split; [reflexivity |].
  unfold run, delivery. cbn [foldl delivered at_now at_ctx].
  rewrite onmessage_turnCompleteEvent, messages_onTurnComplete.
  cbn [transcriptionBufferRef set_transcriptionBufferRef buf_user messages
       String.append].
  cbn zeta. rewrite Htext, Hm.
  destruct (last_snoc_model prior modelMsg) as [-> ->].
  unfold is_model. rewrite Hrole. reflexivity.
Qed.

Lemma stop_all_state (l : list nat) (s : State) :
  foldl (fun st source => emit (source_stop source) st) s l
  = set_trace (trace s ++ map source_stop l) s.
Proof.
  revert s. induction l as [| x l IH]; intros s; cbn [foldl map].
  - rewrite app_nil_r. now destruct s.
  - rewrite IH. cbn. now rewrite <- app_assoc.
Qed.

Lemma onInterrupted_state (s : State) :
  onInterrupted s
  = set_nextStartTimeRef 0
      (set_audioSourcesRef ∅
         (set_trace (trace s ++ map source_stop (elements (audioSourcesRef s))) s)).
Proof. unfold onInterrupted. cbn zeta. now rewrite stop_all_state. Qed.

(** X10: after an interruption the next chunk is scheduled at once: it
    starts at the output clock's reading when it arrives (the cursor was
    reset to zero), and it is the only source tracked. *)
Theorem chunk_after_interruption_starts_on_arrival
  (render : State) (a : string) (now1 ctx1 now2 ctx2 : Z) (s : State) :
  audioContextOutRef s = true -> Js.truthy a = true -> 0 <= ctx2 ->
  let s1 := onmessage render interruptedEvent now1 ctx1 s in
  let s2 := onmessage render (audioChunk a) now2 ctx2 s1 in
  added s1 s2 = [source_start (sourcesCreated s) ctx2 (duration (decodeAudioData a))]
  /\ audioSourcesRef s2 = {[sourcesCreated s]}
  /\ nextStartTimeRef s2 = ctx2 + duration (decodeAudioData a).
Proof.
  intros Hctx Ha Hc. cbn zeta. rewrite onmessage_interruptedEvent, onInterrupted_state.
  unfold onmessage, audioChunk.
  cbn [audio inputTranscription outputTranscription turnComplete interrupted].
  cbn [audioContextOutRef set_nextStartTimeRef set_audioSourcesRef set_trace].
  rewrite Ha, Hctx. cbn [andb]. split; [| split].
  - apply added_app. cbn. now rewrite Z.max_r by lia.
  - cbn. apply union_empty_r_L.
  - cbn. now rewrite Z.max_r by lia.
Qed.

(** X11: two chunks in a row: the second starts where the first ends when
    it arrives before that moment (no gap), and on its arrival when it
    arrives later. *)
Theorem second_chunk_starts_at_end_of_first_or_on_arrival
  (render : State) (a b : string) (now1 ctx1 now2 ctx2 : Z) (s : State) :
  audioContextOutRef s = true -> Js.truthy a = true -> Js.truthy b = true ->
  let start1 := Z.max (nextStartTimeRef s) ctx1 in
  let end1 := start1 + duration (decodeAudioData a) in
  let s2 := run render [delivery (audioChunk a) now1 ctx1;
                        delivery (audioChunk b) now2 ctx2] s in
  scheduled (added s s2)
  = [(start1, duration (decodeAudioData a));
     (Z.max end1 ctx2, duration (decodeAudioData b))]
  /\ (ctx2 <= end1 -> scheduled (added s s2)
                      = [(start1, duration (decodeAudioData a));
                         (end1, duration (decodeAudioData b))])
  /\ (end1 <= ctx2 -> scheduled (added s s2)
                      = [(start1, duration (decodeAudioData a));
                         (ctx2, duration (decodeAudioData b))]).
Proof.
  intros Hctx Ha Hb. cbn zeta.
  assert (Hs : scheduled
                 (added s (run render [delivery (audioChunk a) now1 ctx1;
                                       delivery (audioChunk b) now2 ctx2] s))
               = [(Z.max (nextStartTimeRef s) ctx1, duration (decodeAudioData a));
                  (Z.max (Z.max (nextStartTimeRef s) ctx1 + duration (decodeAudioData a)) ctx2,
                   duration (decodeAudioData b))]).
  { rewrite !run_cons. unfold run, delivery, onmessage, audioChunk.
    cbn [foldl delivered at_now at_ctx audio inputTranscription outputTranscription
         turnComplete interrupted].
    rewrite Ha, Hb, Hctx. cbn [andb].
    assert (Hctx' : audioContextOutRef (onAudioChunk a ctx1 s) = true) by exact Hctx.
    rewrite Hctx'.
    destruct (onAudioChunk_rule a ctx1 s) as (T1 & N1 & _).
    destruct (onAudioChunk_rule b ctx2 (onAudioChunk a ctx1 s)) as (T2 & _ & _).
    cbn zeta in T1, N1, T2. rewrite T1, N1, <- app_assoc in T2.
    rewrite (added_app _ _ _ T2). reflexivity. }
  rewrite Hs. split; [reflexivity |]. split; intros Hle.
  - now rewrite (Z.max_l _ ctx2 Hle).
  - now rewrite (Z.max_r _ ctx2 Hle).
Qed.

(** What [stopLiveSession] closes: the session and each audio context
    that is open. *)
Definition closes (s : State) : list Effect :=
((if liveSessionRef s then [liveSession_close] else [])
 ++ (if audioContextInRef s then [audioContextIn_close] else [])
 ++ (if audioContextOutRef s then [audioContextOut_close] else []))%list.

(** X12: [stopLiveSession] closes what is open, once each, and is
    idempotent (a second call changes nothing, so it is safe when no
    session exists); a chunk of audio that arrives after it is dropped
    whole; and it leaves the loading flag, the tracked sources, the cursor
    and the transcription buffers as they were. *)
Theorem stopLiveSession_is_idempotent_and_drops_late_audio
  (render : State) (a : string) (now ctxNow : Z) (s : State) :
  stopLiveSession (stopLiveSession s) = stopLiveSession s
  /\ added s (stopLiveSession s) = closes s
  /\ onmessage render (audioChunk a) now ctxNow (stopLiveSession s) = stopLiveSession s
  /\ isLive (stopLiveSession s) = false
  /\ isLoading (stopLiveSession s) = isLoading s
  /\ audioSourcesRef (stopLiveSession s) = audioSourcesRef s
  /\ nextStartTimeRef (stopLiveSession s) = nextStartTimeRef s
  /\ transcriptionBufferRef (stopLiveSession s) = transcriptionBufferRef s.
Proof.
  unfold closes, added, onmessage, audioChunk, stopLiveSession.
  cbn [audio inputTranscription outputTranscription turnComplete interrupted].
  destruct s as [ms inp st ld rp rec lv sst ct ch ain aout ls nst srcs tb sc tr].
  cbn [liveSessionRef audioContextInRef audioContextOutRef trace].
  destruct ls, ain, aout;
    (split; [vm_compute; reflexivity |]);
    (split; [cbn; rewrite <- ?app_assoc;
             first [apply drop_app_length | apply drop_all] |]);
    (split; [cbn [set_audioContextOutRef set_audioContextInRef set_isLive
                  audioContextOutRef];
             rewrite andb_false_r; reflexivity |]);
    repeat split.
Qed.

(** X13: a source whose playback has ended is no longer tracked: a later
    interruption stops the sources still tracked and not that one. *)
Theorem ended_source_is_not_stopped (source : nat) (s : State) :
  let s' := onInterrupted (onSourceEnded source s) in
  added s s' = map source_stop (elements (audioSourcesRef s ∖ {[source]}))
  /\ ~ In (source_stop source) (added s s')
  /\ (forall other, other ∈ audioSourcesRef s -> other <> source ->
        In (source_stop other) (added s s')).
Proof.
  cbn zeta.
  assert (Ha : added s (onInterrupted (onSourceEnded source s))
               = map source_stop (elements (audioSourcesRef s ∖ {[source]}))).
  { apply added_app. rewrite trace_onInterrupted. reflexivity. }
  rewrite Ha. split; [reflexivity |]. split.
  - intros Hin. apply in_map_iff in Hin as (x & Hx & Hin).
    injection Hx as ->. apply list_elem_of_In, elem_of_elements in Hin.
    apply elem_of_difference in Hin as [_ Hn]. apply Hn. now apply elem_of_singleton.
  - intros other Hin Hne. apply in_map, list_elem_of_In, elem_of_elements.
    apply elem_of_difference. split; [exact Hin |].
    intros Heq. apply elem_of_singleton in Heq. contradiction.
Qed.

(** X14: the flush of [turnComplete] on a timeline that does not end in a
    model message: on an empty timeline the user message is all there is;
    on a timeline ending in a user message the flushed message is followed
    by a second copy of that last message. *)
Theorem turnComplete_flush_without_trailing_model_message
  (render : State) (now ctxNow : Z) (s : State) :
  Js.truthy (buf_user (transcriptionBufferRef s)) = true ->
  let flushed := userMessage (buf_user (transcriptionBufferRef s)) now in
  (messages s = [] ->
     messages (onmessage render turnCompleteEvent now ctxNow s) = [flushed])
  /\ (forall prior l, messages s = (prior ++ [l])%list -> role l = user ->
        messages (onmessage render turnCompleteEvent now ctxNow s)
        = (prior ++ [l; flushed; l])%list).
Proof.
  intros Hu. cbn zeta. rewrite onmessage_turnCompleteEvent, messages_onTurnComplete.
  cbn zeta. rewrite Hu. split.
  - now intros ->.
  - intros prior l -> Hrole. destruct (last_snoc_model prior l) as [-> _].
    unfold is_model. rewrite Hrole.
    change (bool_decide (user = model)) with false. cbn iota.
    rewrite <- app_assoc. reflexivity.
Qed.

(** A step that starts no assessment and leaves the session as it is. *)
Definition quiet (s st : State) : Prop :=
appState st = appState s /\ report st = report s /\ isLive st = isLive s
/\ liveSessionRef st = liveSessionRef s /\ isLoading st = isLoading s
/\ (forall h, In (call_generateAssessment h) (trace st) ->
              In (call_generateAssessment h) (trace s)).

Lemma quiet_refl (s : State) : quiet s s.
Proof. unfold quiet. tauto. Qed.

Lemma quiet_trans (a b c : State) : quiet a b -> quiet b c -> quiet a c.
Proof.
  unfold quiet. intros (A1 & A2 & A3 & A4 & A5 & A6) (B1 & B2 & B3 & B4 & B5 & B6).
  repeat split; try congruence. intros h Hin. apply A6, B6, Hin.
Qed.

Lemma quiet_onTurnComplete (render : State) (now : Z) (s : State) :
  canRequestAssessment render = false -> quiet s (onTurnComplete render now s).
Proof.
  intros Hgate. unfold onTurnComplete. cbn zeta. rewrite Hgate, andb_false_r.
  destruct (Js.truthy (buf_user (transcriptionBufferRef s)));
    unfold quiet; cbn; tauto.
Qed.

Lemma quiet_onInterrupted (s : State) : quiet s (onInterrupted s).
Proof.
  rewrite onInterrupted_state. unfold quiet. cbn. repeat split.
  intros h Hin. apply in_app_or in Hin as [Hin | Hin]; [exact Hin |].
  apply in_map_iff in Hin as (x & Hx & _). discriminate Hx.
Qed.

Lemma quiet_before_interrupted (render : State) (m : LiveServerMessage)
  (now ctxNow : Z) (s : State) :
  canRequestAssessment render = false ->
  quiet s (before_interrupted render m now ctxNow s).
Proof.
  intros Hgate. unfold before_interrupted, onmessage.
  cbn [audio inputTranscription outputTranscription turnComplete interrupted].
  set (s1 := match audio m with
             | Some a => if Js.truthy a && audioContextOutRef s
                         then onAudioChunk a ctxNow s else s
             | None => s
             end).
  set (s2 := match inputTranscription m with
             | Some t => onInputTranscription t s1
             | None => s1
             end).
  set (s3 := match outputTranscription m with
             | Some t => onOutputTranscription t (turnComplete m) now s2
             | None => s2
             end).
  assert (Q1 : quiet s s1).
  { subst s1. destruct (audio m) as [a|]; [| apply quiet_refl].
    destruct (Js.truthy a && audioContextOutRef s); [| apply quiet_refl].
    unfold quiet. cbn. repeat split. intros h Hin.
    apply in_app_or in Hin as [Hin | [Hin | []]]; [exact Hin | discriminate Hin]. }
  assert (Q2 : quiet s1 s2).
  { subst s2. destruct (inputTranscription m); [| apply quiet_refl].
    unfold quiet. cbn. tauto. }
  assert (Q3 : quiet s2 s3).
  { subst s3. destruct (outputTranscription m) as [t|]; [| apply quiet_refl].
    unfold quiet, onOutputTranscription. cbn.
    destruct (last (messages s2)) as [l|]; [destruct (is_model l) |]; cbn; tauto. }
  eapply quiet_trans; [exact Q1 |]. eapply quiet_trans; [exact Q2 |].
  eapply quiet_trans; [exact Q3 |].
  destruct (turnComplete m); [now apply quiet_onTurnComplete | apply quiet_refl].
Qed.

(** X15: the live callback decides with the timer gate of the render that
    created it, not with the clock of the state it runs in: when that
    render's gate is closed, no message of the session starts an
    assessment or stops the session, a spoken trigger phrase and an open
    gate in the current state notwithstanding. *)
Theorem live_trigger_uses_the_gate_of_its_render
  (render : State) (m : LiveServerMessage) (now ctxNow : Z) (s : State) :
  canRequestAssessment render = false ->
  let s' := onmessage render m now ctxNow s in
  appState s' = appState s
  /\ report s' = report s
  /\ isLive s' = isLive s
  /\ liveSessionRef s' = liveSessionRef s
  /\ (forall h, In (call_generateAssessment h) (trace s') ->
                In (call_generateAssessment h) (trace s)).
Proof.
  intros Hgate. cbn zeta.
  assert (Q : quiet s (onmessage render m now ctxNow s)).
  { destruct (interrupted m) eqn:Hi.
    - rewrite (onmessage_interrupted _ _ _ _ _ Hi).
      apply (quiet_trans _ (before_interrupted render m now ctxNow s));
        [now apply quiet_before_interrupted | apply quiet_onInterrupted].
    - rewrite (onmessage_not_interrupted _ _ _ _ _ Hi).
      now apply quiet_before_interrupted. }
  destruct Q as (Q1 & Q2 & Q3 & Q4 & _ & Q6). tauto.
Qed.

(** X16: when the gate of the callback's render is open and the flushed
    user text holds a trigger phrase, [turnComplete] stops the live
    session and hands the timeline, the flushed message included, to the
    assessment. *)
Theorem spoken_trigger_stops_session_and_starts_assessment
  (render : State) (now ctxNow : Z) (s : State) :
  canRequestAssessment render = true ->
  matchesTrigger (buf_user (transcriptionBufferRef s)) = true ->
  let s' := onmessage render turnCompleteEvent now ctxNow s in
  appState s' = ASSESSING
  /\ isLive s' = false
  /\ liveSessionRef s' = false
  /\ added s s' = (closes s ++ [call_generateAssessment (messages s')])%list
  /\ transcriptionBufferRef s' = cleared.
Proof.
  intros Hgate Hm. cbn zeta. rewrite onmessage_turnCompleteEvent.
  pose proof (matchesTrigger_not_blank _ Hm) as Hb.
  assert (Hu : Js.truthy (buf_user (transcriptionBufferRef s)) = true).
  { destruct (buf_user (transcriptionBufferRef s)); [discriminate Hb | reflexivity]. }
  unfold onTurnComplete. cbn zeta.
  rewrite matchesTrigger_guard, Hm, Hgate, Hu. cbn [andb].
  clear Hm Hb Hu. unfold stopLiveSession, closes, added.
  destruct s as [ms inp st ld rp rec lv sst ct ch ain aout ls nst srcs tb sc tr].
  cbn [liveSessionRef audioContextInRef audioContextOutRef trace].
  destruct ls, ain, aout; cbn; rewrite <- ?app_assoc; repeat split;
    apply drop_app_length.
Qed.

End LiveMore.

(** ** The text of the assessment button: [getAssessmentTimerText] *)

From Stdlib Require Import DecimalString.

(** [String(n)] of an integer. *)
Definition toString_int (z : Z) : string := NilZero.string_of_int (Z.to_int z).

(** The filling of [padStart]: [n] characters of [fill], repeated. *)
Fixpoint pad_fill (n : nat) (fill cur : string) : string :=
match n with
| O => ""
| S n' =>
    match cur with
    | String c r => String c (pad_fill n' fill r)
    | EmptyString =>
        match fill with
        | String c r => String c (pad_fill n' fill r)
        | EmptyString => ""
        end
    end
end.

(** [s.padStart(target, fill)]. *)
Definition padStart (target : nat) (fill s : string) : string :=
pad_fill (target - String.length s) fill fill ++ s.

Definition GENERATE_LABEL : string := "GENERATE MY LANGUAGE ASSESSMENT".

(** [getAssessmentTimerText]; as [getElapsedTime], a closure of the
    render whose state is [s].  [%] is the remainder of truncated
    division, [Math.floor] of a quotient of integers the floored one. *)
Definition getAssessmentTimerText (s : State) : string :=
match sessionStartTime s with
| None => GENERATE_LABEL
| Some t =>
    if (t =? 0)%Z then GENERATE_LABEL
    else
      let remaining := (180000 - getElapsedTime s)%Z in
      if (remaining <=? 0)%Z then GENERATE_LABEL
      else
        let minutes := (remaining / 60000)%Z in
        let seconds := (Z.rem remaining 60000 / 1000)%Z in
        "LOCKED: " ++ toString_int minutes ++ ":"
          ++ padStart 2 "0" (toString_int seconds)
end.

Section TimerText.

Local Open Scope Z_scope.

Lemma two_digits (sec : Z) :
  0 <= sec <= 59 -> String.length (padStart 2 "0" (toString_int sec)) = 2%nat.
Proof.
  intros Hs. replace sec with (Z.of_nat (Z.to_nat sec)) by lia.
  assert (Hn : (Z.to_nat sec < 60)%nat) by lia.
  generalize dependent (Z.to_nat sec). intros n Hn.
  do 60 (destruct n as [| n]; [reflexivity |]). lia.
Qed.

Lemma locked_is_not_the_label (rest : string) : "LOCKED: " ++ rest <> GENERATE_LABEL.
Proof. discriminate. Qed.

Lemma elapsed_bounds (s : State) : 0 <= getElapsedTime s.
Proof.
  unfold getElapsedTime. destruct (sessionStartTime s) as [t|]; [| lia].
  destruct (t =? 0); lia.
Qed.

(** X17: the button reads "GENERATE MY LANGUAGE ASSESSMENT" exactly when
    no session start is recorded or the timer gate is open, so before any
    session it reads so while the gate is closed; otherwise it reads
    "LOCKED: m:ss", the time left rounded down to whole seconds, with
    [m] from 0 to 3 and [ss] always two digits from 00 to 59. *)
Theorem button_text_counts_down_whole_seconds (s : State) :
  (getAssessmentTimerText s = GENERATE_LABEL
   <-> sessionStartTime s = None \/ sessionStartTime s = Some 0
       \/ canRequestAssessment s = true)
  /\ (sessionStartTime s = None ->
        getAssessmentTimerText s = GENERATE_LABEL /\ canRequestAssessment s = false)
  /\ (forall t, sessionStartTime s = Some t -> t <> 0 ->
        canRequestAssessment s = false ->
        exists m sec,
          getAssessmentTimerText s
          = "LOCKED: " ++ toString_int m ++ ":" ++ padStart 2 "0" (toString_int sec)
          /\ 0 <= m <= 3 /\ 0 <= sec <= 59
          /\ m * 60 + sec = (180000 - getElapsedTime s) / 1000
          /\ String.length (padStart 2 "0" (toString_int sec)) = 2%nat).
Proof.
  pose proof (elapsed_bounds s) as He.
  split; [| split].
  - unfold getAssessmentTimerText, canRequestAssessment.
    destruct (sessionStartTime s) as [t|] eqn:Hs.
    + destruct (Z.eqb_spec t 0) as [-> | Ht].
      * split; [now right; left | reflexivity].
      * destruct (Z.leb_spec (180000 - getElapsedTime s) 0) as [Hle | Hgt].
        -- split; [intros _; right; right; apply Z.leb_le; lia | reflexivity].
        -- split.
           ++ intros Habs. now apply locked_is_not_the_label in Habs.
           ++ intros [Hn | [Hz | Hg]]; [discriminate Hn | congruence |].
              apply Z.leb_le in Hg. lia.
    + split; [now left | reflexivity].
  - intros Hs. unfold getAssessmentTimerText, canRequestAssessment, getElapsedTime.
    rewrite Hs. split; reflexivity.
  - intros t Hs Ht Hgate. unfold canRequestAssessment in Hgate.
    apply Z.leb_gt in Hgate.
    set (remaining := 180000 - getElapsedTime s) in *.
    assert (Hr : 1 <= remaining <= 180000) by (subst remaining; lia).
    exists (remaining / 60000), (Z.rem remaining 60000 / 1000).
    assert (Hrem : Z.rem remaining 60000 = remaining mod 60000)
      by (apply Z.rem_mod_nonneg; lia).
    pose proof (Z.mod_pos_bound remaining 60000 ltac:(lia)) as Hmod.
    pose proof (Z.div_mod remaining 60000 ltac:(lia)) as Hdm.
    assert (Hm : 0 <= remaining / 60000 <= 3).
    { split; [apply Z.div_pos; lia |].
      apply Z.div_le_upper_bound; lia. }
    assert (Hsec : 0 <= Z.rem remaining 60000 / 1000 <= 59).
    { rewrite Hrem. split; [apply Z.div_pos; lia |].
      apply Z.lt_succ_r. apply Z.div_lt_upper_bound; lia. }
    split.
    { unfold getAssessmentTimerText. rewrite Hs.
      destruct (Z.eqb_spec t 0); [contradiction |].
      fold remaining. destruct (Z.leb_spec remaining 0); [lia | reflexivity]. }
    split; [exact Hm |]. split; [exact Hsec |]. split; [| now apply two_digits].
    rewrite Hrem.
    rewrite Hdm at 3.
    replace (60000 * (remaining / 60000) + remaining mod 60000)
      with ((remaining / 60000 * 60) * 1000 + remaining mod 60000) by lia.
    rewrite Z.div_add_l by lia. lia.
Qed.

Example button_text_at_start :
  getAssessmentTimerText (set_sessionStartTime (Some 1700000000000) (initial 1700000000000))
  = "LOCKED: 3:00".
Proof. reflexivity. Qed.

Example button_text_last_second :
  getAssessmentTimerText (set_sessionStartTime (Some 1700000000000) (initial 1700000179001))
  = "LOCKED: 0:00".
Proof. reflexivity. Qed.

Example button_text_mid :
  getAssessmentTimerText (set_sessionStartTime (Some 1700000000000) (initial 1700000054321))
  = "LOCKED: 2:05".
Proof. reflexivity. Qed.

End TimerText.

(** ** Dictation: the callbacks of the speech recognition *)

(** What [onresult] reads of a result: [results[i].isFinal] and
    [results[i][0].transcript]. *)
Record SpeechResult := {
  isFinal : bool;
  transcript : string
}.

Record SpeechEvent := {
  resultIndex : nat;
  results : list SpeechResult
}.

(** The loop of [onresult]: from [resultIndex] on, the transcripts of the
    final results are appended to [finalTranscript]. *)
Definition finalTranscript (e : SpeechEvent) : string :=
foldl (fun acc r => if isFinal r then acc ++ transcript r else acc) ""
      (drop (resultIndex e) (results e)).

(** [s.endsWith(k)]: some suffix of [s] is [k]. *)
Fixpoint endsWith (s k : string) : bool :=
String.eqb s k
|| match s with
   | EmptyString => false
   | String _ r => endsWith r k
   end.

(** The separator of [onresult]:
    [prev.length > 0 && !prev.endsWith(' ') ? ' ' : '']. *)
Definition separator (prev : string) : string :=
if Js.truthy prev && negb (endsWith prev " ") then " " else "".

Definition onresult (e : SpeechEvent) (s : State) : State :=
let ft := finalTranscript e in
if Js.truthy ft then set_input (input s ++ separator (input s) ++ ft) s else s.

(** [recognition.onerror] and [recognition.onend]. *)
Definition onRecognitionEnd (s : State) : State := set_isRecording false s.

Section Dictation.

Lemma collect_from (acc : string) (rs : list SpeechResult) :
  foldl (fun a r => if isFinal r then a ++ transcript r else a) acc rs
  = acc ++ concat_texts (map transcript (filter (fun r => isFinal r = true) rs)).
Proof.
  revert acc. induction rs as [| r rs IH]; intros acc.
  - cbn. induction acc as [| c a IHa]; [reflexivity | cbn; now rewrite <- IHa].
  - cbn [foldl]. rewrite IH. rewrite filter_cons.
    destruct (isFinal r); cbn.
    + rewrite decide_True by reflexivity. cbn. now rewrite append_assoc.
    + rewrite decide_False by discriminate. reflexivity.
Qed.

Lemma finalTranscript_spec (e : SpeechEvent) :
  finalTranscript e
  = concat_texts (map transcript
                    (filter (fun r => isFinal r = true) (drop (resultIndex e) (results e)))).
Proof. unfold finalTranscript. now rewrite collect_from. Qed.

Lemma endsWith_spec (s k : string) :
  endsWith s k = true <-> exists pre, s = pre ++ k.
Proof.
  induction s as [| c r IH].
  - cbn [endsWith]. rewrite orb_false_r, String.eqb_eq. split.
    + intros <-. now exists "".
    + intros [pre Hp]. destruct pre; [exact Hp | discriminate Hp].
  - cbn [endsWith]. rewrite orb_true_iff, String.eqb_eq, IH. split.
    + intros [<- | [pre ->]]; [now exists "" | now exists (String c pre)].
    + intros [pre Hp]. destruct pre as [| c' pre].
      * now left.
      * right. cbn in Hp. injection Hp as _ ->. now exists pre.
Qed.

(** X18: dictation only ever adds to the input field.  An event whose
    results from [resultIndex] on are all interim changes nothing; results
    before [resultIndex] are never taken again; otherwise the final
    transcripts, in order, are appended to what the field holds, after
    one space unless the field is empty or already ends in a space. *)
Theorem dictation_appends_final_transcripts (e : SpeechEvent) (s : State) :
  (Forall (fun r => isFinal r = false) (drop (resultIndex e) (results e)) ->
     onresult e s = s)
  /\ (forall earlier later,
        finalTranscript {| resultIndex := length earlier;
                           results := earlier ++ later |}
        = finalTranscript {| resultIndex := 0; results := later |})
  /\ (exists added_text,
        input (onresult e s) = input s ++ added_text
        /\ (Js.truthy (finalTranscript e) = true ->
            added_text = separator (input s) ++ finalTranscript e))
  /\ (separator (input s) = " "
      <-> input s <> "" /\ ~ (exists pre, input s = pre ++ " "))
  /\ (separator (input s) = " " \/ separator (input s) = "").
Proof.
  split; [| split; [| split; [| split]]].
  - intros Hall. unfold onresult. rewrite finalTranscript_spec.
    replace (filter (fun r => isFinal r = true) (drop (resultIndex e) (results e)))
      with (@nil SpeechResult); [reflexivity |].
    symmetry. induction Hall as [| r rs Hr _ IH]; [reflexivity |].
    rewrite filter_cons, decide_False by (rewrite Hr; discriminate). exact IH.
  - intros earlier later. unfold finalTranscript. cbn [resultIndex results].
    now rewrite drop_app_length.
  - unfold onresult. destruct (Js.truthy (finalTranscript e)) eqn:Hft.
    + exists (separator (input s) ++ finalTranscript e). split; [reflexivity | reflexivity].
    + exists "". split; [now rewrite append_empty_r | discriminate].
  - unfold separator. destruct (input s) as [| c r] eqn:Hin.
    + cbn. split; [discriminate | intros [Hne _]; contradiction].
    + cbn [Js.truthy andb]. destruct (endsWith (String c r) " ") eqn:He; cbn.
      * apply endsWith_spec in He. split; [discriminate | intros [_ Hn]; contradiction].
      * split; [| reflexivity]. intros _. split; [discriminate |].
        intros Hex. apply endsWith_spec in Hex. congruence.
  - unfold separator. destruct (Js.truthy (input s) && negb (endsWith (input s) " "));
      [now left | now right].
Qed.

Example dictation_two_phrases :
  input (onresult {| resultIndex := 1;
                     results := [ {| isFinal := true; transcript := "bonjour" |};
                                  {| isFinal := true; transcript := "comment ca va" |};
                                  {| isFinal := false; transcript := "auj" |} ] |}
           (set_input "bonjour" (initial 0)))
  = "bonjour comment ca va".
Proof. reflexivity. Qed.

End Dictation.

(** ** Starting, restarting and resetting a session *)

(** The component with the one state variable the handlers above do not
    read: [isSessionActive]. *)
Record Component := {
  state : State;
  isSessionActive : bool
}.

Definition set_currentTime (v : Z) (s : State) : State :=
  mkState (messages s) (input s) (appState s) (isLoading s) (report s)
    (isRecording s) (isLive s) (sessionStartTime s) v (chatRef s)
    (audioContextInRef s) (audioContextOutRef s) (liveSessionRef s)
    (nextStartTimeRef s) (audioSourcesRef s) (transcriptionBufferRef s)
    (sourcesCreated s) (trace s).

(** The timer of the first effect: [setCurrentTime(Date.now())], every
    second. *)
Definition tick (now : Z) (s : State) : State := set_currentTime now s.

(** [resetSession]. *)
Definition resetSession (c : Component) : Component :=
let s1 := stopLiveSession (state c) in
let s2 := set_chatRef false s1 in
let s3 := set_messages [] s2 in
let s4 := set_appState CHATTING s3 in
let s5 := set_sessionStartTime None s4 in
let s6 := set_isLoading false s5 in
{| state := set_report None s6; isSessionActive := false |}.

(** The double quote of the opening prompt. *)
Definition dq : string := String (ascii_of_N 34) EmptyString.

Definition triggerPrompt (focusTopic languageName : string) : string :=
"Introduce yourself and the topic " ++ dq ++ focusTopic ++ dq ++ " in "
  ++ languageName
  ++ " using ONLY Latin script. Be chatty, social, and ask an opening question to get things started!".

(** [startNewChat]: [languageName] and [focusTopic] are the render's
    [selectedLanguage.name] and [selectedTopic]; [createDuoChat] returns
    the chat that [chatRef] then holds.  The closing call is
    [handleSendMessage(triggerPrompt, true)]. *)
Definition startNewChat (languageName focusTopic : string) (now : Z) (c : Component)
  : Component :=
let s1 := stopLiveSession (state c) in
let s2 := set_messages [] s1 in
let s3 := set_appState CHATTING s2 in
let s4 := set_sessionStartTime (Some now) s3 in
let s5 := set_chatRef true s4 in
{| state := handleSendMessage (triggerPrompt focusTopic languageName) true now s5;
   isSessionActive := true |}.

(** [startLiveSession] up to [await getUserMedia]: a toggle when the
    session is live; otherwise the flags, the two audio contexts and the
    cursor are set. *)
Definition startLiveSession (now : Z) (c : Component) : Component :=
let s := state c in
if isLive s then {| state := stopLiveSession s; isSessionActive := isSessionActive c |}
else
  let s1 := match sessionStartTime s with
            | None => set_sessionStartTime (Some now) s
            | Some t0 => if (t0 =? 0)%Z then set_sessionStartTime (Some now) s else s
            end in
  let s2 := set_isLive true (set_isLoading true s1) in
  let s3 := set_audioContextOutRef true (set_audioContextInRef true s2) in
  {| state := set_nextStartTimeRef 0 s3; isSessionActive := true |}.

(** The callbacks [onopen] and [onclose] of the live session, as far as
    the state goes. *)
Definition onopen (s : State) : State := set_isLoading false s.
Definition onclose (s : State) : State := set_isLive false s.

(** The button "Back to Floor" of the report screen. *)
Definition backToFloor (now : Z) (s : State) : State :=
set_sessionStartTime (Some now) (set_appState CHATTING s).

(** The landing page is shown when [!isSessionActive && !isLive]. *)
Definition showsLanding (c : Component) : bool :=
negb (isSessionActive c) && negb (isLive (state c)).

Section Sessions.

Context `{AudioUtils}.

#[local] Arguments matchesTrigger : simpl never.

Local Open Scope Z_scope.

Lemma state_eta (s : State) :
  mkState (messages s) (input s) (appState s) (isLoading s) (report s)
    (isRecording s) (isLive s) (sessionStartTime s) (currentTime s) (chatRef s)
    (audioContextInRef s) (audioContextOutRef s) (liveSessionRef s)
    (nextStartTimeRef s) (audioSourcesRef s) (transcriptionBufferRef s)
    (sourcesCreated s) (trace s) = s.
Proof. now destruct s. Qed.

Lemma handleSendMessage_initial (t : string) (now : Z) (s : State) :
  handleSendMessage t true now s
  = if chatRef s
    then emit (chat_sendMessage t)
           (set_isLoading true
              (if isRecording s
               then set_isRecording false (emit recognition_stop s) else s))
    else s.
Proof.
  unfold handleSendMessage. cbn [negb]. rewrite andb_false_r.
  destruct (chatRef s); reflexivity.
Qed.

(** X19: [resetSession] brings back the landing page with an empty
    timeline, no report, no chat, no running clock (so a closed gate) and
    nothing loading or live, and a second reset changes nothing more; it
    does not touch the input field, the recording flag, the transcription
    buffers, the tracked sources or the cursor. *)
Theorem resetSession_returns_to_landing (c : Component) :
  let c' := resetSession c in
  showsLanding c' = true
  /\ messages (state c') = [] /\ report (state c') = None
  /\ appState (state c') = CHATTING /\ chatRef (state c') = false
  /\ sessionStartTime (state c') = None /\ canRequestAssessment (state c') = false
  /\ isLoading (state c') = false /\ isLive (state c') = false
  /\ added (state c) (state c') = closes (state c)
  /\ resetSession c' = c'
  /\ input (state c') = input (state c)
  /\ isRecording (state c') = isRecording (state c)
  /\ transcriptionBufferRef (state c') = transcriptionBufferRef (state c)
  /\ audioSourcesRef (state c') = audioSourcesRef (state c)
  /\ nextStartTimeRef (state c') = nextStartTimeRef (state c).
Proof.
  destruct c as [s act]. unfold resetSession, showsLanding, stopLiveSession, closes, added.
  cbn [state isSessionActive].
  destruct s as [ms inp st ld rp rec lv sst ct ch ain aout ls nst srcs tb sc tr].
  cbn [liveSessionRef audioContextInRef audioContextOutRef trace].
  destruct ls, ain, aout;
    (do 9 (split; [reflexivity |]));
    (split; [cbn; rewrite <- ?app_assoc;
             first [apply drop_app_length | apply drop_all] |]);
    (split; [vm_compute; reflexivity |]);
    repeat split.
Qed.

(** X20: [startNewChat] opens a chat on an empty timeline and starts the
    session clock at the current reading; the opening prompt goes to the
    chat, whatever topic it names and whatever the gate, and is not shown,
    so the first message of the timeline is the model's reply; a report
    stored by an earlier assessment is kept. *)
Theorem startNewChat_opens_with_hidden_prompt
  (languageName focusTopic : string) (now : Z) (c : Component) :
  let c' := startNewChat languageName focusTopic now c in
  isSessionActive c' = true
  /\ messages (state c') = []
  /\ appState (state c') = CHATTING
  /\ chatRef (state c') = true
  /\ sessionStartTime (state c') = Some now
  /\ isLoading (state c') = true
  /\ isLive (state c') = false
  /\ added (state c) (state c')
     = (closes (state c) ++ stop_if_recording (state c)
        ++ [chat_sendMessage (triggerPrompt focusTopic languageName)])%list
  /\ report (state c') = report (state c)
  /\ (forall reply now', Js.truthy reply = true ->
        messages (handleSendMessage_replied (Resolved (Some reply)) now' (state c'))
        = [modelMessage reply now']).
Proof.
  destruct c as [s act]. unfold startNewChat. cbn [state isSessionActive].
  rewrite handleSendMessage_initial.
  generalize (triggerPrompt focusTopic languageName). intros prompt.
  unfold stop_if_recording, stopLiveSession, closes, added.
  destruct s as [ms inp st ld rp rec lv sst ct ch ain aout ls nst srcs tb sc tr].
  cbn [liveSessionRef audioContextInRef audioContextOutRef trace isRecording].
  assert (Hor : forall reply, Js.truthy reply = true -> Js.or_else reply "..." = reply).
  { intros reply Hr. unfold Js.or_else. now rewrite Hr. }
  destruct ls, ain, aout, rec;
    (do 7 (split; [reflexivity |]));
    (split; [cbn; rewrite <- ?app_assoc; apply drop_app_length |]);
    (split; [reflexivity |]);
    (intros reply now' Hr; unfold handleSendMessage_replied;
     cbn [messages set_messages set_isLoading emit set_trace set_isRecording
          set_chatRef set_sessionStartTime set_appState set_isLive
          set_audioContextOutRef set_audioContextInRef set_liveSessionRef app];
     now rewrite (Hor reply Hr)).
Qed.

(** X21: [startLiveSession] is a toggle: on a live session it is
    [stopLiveSession] and nothing else.  Otherwise it marks the session
    live and loading, opens both audio contexts and resets the cursor to
    zero; it keeps the timeline, the chat and a running session clock, and
    starts the clock only when none is running. *)
Theorem startLiveSession_toggles_and_keeps_the_session (now : Z) (c : Component) :
  (isLive (state c) = true ->
     state (startLiveSession now c) = stopLiveSession (state c)
     /\ isSessionActive (startLiveSession now c) = isSessionActive c)
  /\ (isLive (state c) = false ->
      let s' := state (startLiveSession now c) in
      isLive s' = true /\ isLoading s' = true
      /\ audioContextInRef s' = true /\ audioContextOutRef s' = true
      /\ nextStartTimeRef s' = 0
      /\ isSessionActive (startLiveSession now c) = true
      /\ messages s' = messages (state c)
      /\ chatRef s' = chatRef (state c)
      /\ trace s' = trace (state c)
      /\ (forall t0, sessionStartTime (state c) = Some t0 -> t0 <> 0 ->
            sessionStartTime s' = Some t0)
      /\ (sessionStartTime (state c) = None -> sessionStartTime s' = Some now)).
Proof.
  destruct c as [s act]. unfold startLiveSession. cbn [state isSessionActive]. split.
  - intros ->. split; reflexivity.
  - intros ->. cbn zeta.
    destruct (sessionStartTime s) as [t0|] eqn:Hs.
    + destruct (Z.eqb_spec t0 0) as [-> | Hne]; cbn; rewrite ?Hs; repeat split;
        try discriminate; try (intros t1 Ht1 Hn; congruence).
    + cbn. repeat split. intros t0 Ht0. discriminate Ht0.
Qed.

(** X22: voice practice started before any session clock runs creates
    its callback in a render without a session start: during that live
    session no spoken trigger phrase starts the assessment, however long
    the session lasts (the clock that [startLiveSession] starts is not
    the one the callback reads). *)
Theorem voice_started_from_landing_never_triggers
  (now : Z) (c : Component) (m : LiveServerMessage) (now' ctxNow : Z) (s : State) :
  sessionStartTime (state c) = None -> isLive (state c) = false ->
  sessionStartTime (state (startLiveSession now c)) = Some now
  /\ appState (onmessage (state c) m now' ctxNow s) = appState s
  /\ (forall h, In (call_generateAssessment h) (trace (onmessage (state c) m now' ctxNow s)) ->
                In (call_generateAssessment h) (trace s)).
Proof.
  intros Hs Hlive. split.
  - unfold startLiveSession. rewrite Hlive, Hs. reflexivity.
  - assert (Hgate : canRequestAssessment (state c) = false).
    { unfold canRequestAssessment, getElapsedTime. now rewrite Hs. }
    assert (Q : quiet s (onmessage (state c) m now' ctxNow s)).
    { destruct (interrupted m) eqn:Hi.
      - rewrite (onmessage_interrupted _ _ _ _ _ Hi).
        apply (quiet_trans _ (before_interrupted (state c) m now' ctxNow s));
          [now apply quiet_before_interrupted | apply quiet_onInterrupted].
      - rewrite (onmessage_not_interrupted _ _ _ _ _ Hi).
        now apply quiet_before_interrupted. }
    destruct Q as (Q1 & _ & _ & _ & _ & Q6). split; [exact Q1 | exact Q6].
Qed.

(** X23: the timer gate over time.  While the session start stays the
    same the gate, once open, stays open as the clock ticks on; "Back to
    Floor" restarts the clock, which closes the gate again for three
    minutes, and keeps the report and the timeline. *)
Theorem gate_stays_open_until_the_clock_restarts (s : State) (now : Z) :
  (canRequestAssessment s = true -> currentTime s <= now ->
     canRequestAssessment (tick now s) = true)
  /\ (now <> 0 -> currentTime s - now < 180000 ->
      canRequestAssessment (backToFloor now s) = false)
  /\ appState (backToFloor now s) = CHATTING
  /\ report (backToFloor now s) = report s
  /\ messages (backToFloor now s) = messages s.
Proof.
  split; [| split; [| repeat split]].
  - unfold canRequestAssessment, getElapsedTime, tick. cbn.
    destruct (sessionStartTime s) as [t0|]; [| discriminate].
    destruct (t0 =? 0); [discriminate |].
    rewrite !Z.leb_le. lia.
  - intros Hn Hlt. unfold canRequestAssessment, getElapsedTime, backToFloor. cbn.
    destruct (Z.eqb_spec now 0); [contradiction |]. apply Z.leb_gt. lia.
Qed.

End Sessions.

(** ** Scenario and topic selection *)

(** A scenario of [constants.ts], as far as the coordinator reads it. *)
Record Scenario := {
  scenario_id : string;
  scenario_name : string
}.

(** [selectedScenario] and [selectedTopic]; the topic is [undefined] when
    it was taken from an empty list. *)
Record Selection := {
  selectedScenario : Scenario;
  selectedTopic : option string
}.

Section Topics.

(** The tables of [constants.ts]. *)
Variable SCENARIOS : list Scenario.
Variables GENERAL_TOPICS PUBLIC_SPEAKING_TOPICS LEADERSHIP_TOPICS : list string.

Definition getTopicList (scenarioId : string) : list string :=
if String.eqb scenarioId "public" then PUBLIC_SPEAKING_TOPICS
else if String.eqb scenarioId "leadership" then LEADERSHIP_TOPICS
else GENERAL_TOPICS.

(** [SCENARIOS.find(s => s.id === scenarioId)], then [newList[0]]. *)
Definition handleScenarioChange (scenarioId : string) (sel : Selection) : Selection :=
match List.find (fun sc => String.eqb (scenario_id sc) scenarioId) SCENARIOS with
| Some sc => {| selectedScenario := sc;
                selectedTopic := Js.first (getTopicList (scenario_id sc)) |}
| None => sel
end.

(** The selected topic is one of the topics offered for the selected
    scenario. *)
Definition topic_fits (sel : Selection) : Prop :=
forall t, selectedTopic sel = Some t ->
          In t (getTopicList (scenario_id (selectedScenario sel))).

Lemma first_In {A} (l : list A) (x : A) : Js.first l = Some x -> In x l.
Proof. destruct l; [discriminate | intros [= ->]; now left]. Qed.

(** X24: choosing a scenario by an id that no scenario has changes
    nothing; choosing a known one selects the first scenario with that id
    and resets the topic to the first topic of that scenario's list, so
    the topic selected afterwards is always one offered for the selected
    scenario. *)
Theorem handleScenarioChange_keeps_topic_in_list (scenarioId : string) (sel : Selection) :
  ((forall sc, In sc SCENARIOS -> scenario_id sc <> scenarioId) ->
     handleScenarioChange scenarioId sel = sel)
  /\ (forall sc, In sc SCENARIOS -> scenario_id sc = scenarioId ->
        scenario_id (selectedScenario (handleScenarioChange scenarioId sel)) = scenarioId
        /\ In (selectedScenario (handleScenarioChange scenarioId sel)) SCENARIOS
        /\ selectedTopic (handleScenarioChange scenarioId sel)
           = Js.first (getTopicList scenarioId))
  /\ (topic_fits sel -> topic_fits (handleScenarioChange scenarioId sel)).
Proof.
  unfold handleScenarioChange. split; [| split].
  - intros Hnone.
    destruct (List.find _ SCENARIOS) as [sc|] eqn:Hf; [| reflexivity].
    apply find_some in Hf as [Hin Heq]. apply String.eqb_eq in Heq.
    now destruct (Hnone sc Hin).
  - intros sc Hin Hid.
    destruct (List.find _ SCENARIOS) as [sc'|] eqn:Hf.
    + apply find_some in Hf as [Hin' Heq]. apply String.eqb_eq in Heq.
      cbn. rewrite Heq. repeat split; assumption.
    + pose proof (find_none _ _ Hf sc Hin) as Hn. cbn in Hn.
      rewrite Hid, String.eqb_refl in Hn. discriminate Hn.
  - intros Hfit.
    destruct (List.find _ SCENARIOS) as [sc'|]; [| exact Hfit].
    intros t Ht. cbn in *. now apply first_In.
Qed.

End Topics.

(** ** The readout and the loading flag *)

Section Readout.

Import GeminiService.

Context `{AudioUtils}.

Lemma stopLiveSession_flags (s : State) :
  isLive (stopLiveSession s) = false
  /\ isLoading (stopLiveSession s) = isLoading s.
Proof.
  unfold stopLiveSession.
  destruct s as [ms inp st ld rp rec lv sst ct ch ain aout ls nst srcs tb sc tr].
  cbn [liveSessionRef audioContextInRef audioContextOutRef].
  destruct ls, ain, aout; split; reflexivity.
Qed.

(** X25: the speech payload is read from the first part of the first
    candidate only: [generateSpeech] resolves to a payload exactly when
    the response has a first candidate with content whose first part has
    inline data with a data field, and to nothing in every other case;
    and the coordinator plays the readout exactly when that payload is a
    non-empty string. *)
Theorem readout_comes_from_first_part_of_first_candidate
  (remote : Remote) (t : string) (response : GenerateContentResponse) (s : State) :
  remote (speechRequest t) = Resolved response ->
  (forall d,
      generateSpeech remote t = Resolved (Some d)
      <-> exists c cs ct p ps b,
            candidates response = Some (c :: cs) /\ content c = Some ct
            /\ parts ct = Some (p :: ps) /\ inlineData p = Some b
            /\ data b = Some d)
  /\ (forall payload,
        added s (handleTriggerAssessment_spoken payload s)
        = match payload with
          | Some d => if Js.truthy d then [readout_start d] else []
          | None => []
          end).
Proof.
  intros Hr. split.
  - intros d. destruct remote as [models | thrown]; [| discriminate Hr].
    cbn [generateContent] in Hr. unfold generateSpeech. rewrite Hr. split.
    + intros [= Hd].
      destruct (candidates response) as [[| c cs] |] eqn:E1; try discriminate Hd.
      cbn in Hd. destruct (content c) as [ct|] eqn:E2; [| discriminate Hd]. cbn in Hd.
      destruct (parts ct) as [[| p ps] |] eqn:E3; try discriminate Hd. cbn in Hd.
      destruct (inlineData p) as [b|] eqn:E4; [| discriminate Hd]. cbn in Hd.
      exists c, cs, ct, p, ps, b. repeat split; assumption.
    + intros (c & cs & ct & p & ps & b & -> & Hc & Hp & Hi & Hd).
      cbn. rewrite Hc. cbn. rewrite Hp. cbn. rewrite Hi. cbn. now rewrite Hd.
  - intros payload. unfold added, handleTriggerAssessment_spoken.
    destruct payload as [d|]; [destruct (Js.truthy d) |]; cbn;
      first [apply drop_app_length | apply drop_all].
Qed.

(** X26: stopping voice does not clear the loading flag that starting it
    has set: when voice is started and stopped again before the session
    has opened, the coordinator is left not live and still loading, and
    [resetSession] is what clears the flag. *)
Theorem voice_stopped_before_open_stays_loading (now1 now2 : Z) (c : Component) :
  isLive (state c) = false ->
  let c2 := startLiveSession now2 (startLiveSession now1 c) in
  isLive (state c2) = false
  /\ isLoading (state c2) = true
  /\ isLoading (onopen (state (startLiveSession now1 c))) = false
  /\ isLoading (state (resetSession c2)) = false.
Proof.
  intros Hlive. destruct c as [s act]. cbn [state] in Hlive. cbn zeta.
  assert (Hfirst : exists s1,
             startLiveSession now1 {| state := s; isSessionActive := act |}
             = {| state := s1; isSessionActive := true |}
             /\ isLive s1 = true /\ isLoading s1 = true).
  { unfold startLiveSession. cbn [state isSessionActive]. rewrite Hlive.
    eexists. split; [reflexivity |].
    destruct (sessionStartTime s) as [t0|]; [destruct (t0 =? 0)%Z |];
      split; reflexivity. }
  destruct Hfirst as (s1 & -> & Hl1 & Hld1).
  unfold startLiveSession at 1 2. cbn [state isSessionActive]. rewrite Hl1.
  cbn [state]. unfold onopen, resetSession. cbn [state isLoading set_isLoading set_report].
  destruct (stopLiveSession_flags s1) as (Hlv & Hld).
  rewrite Hlv, Hld, Hld1. repeat split.
Qed.

End Readout.

(** ** The further properties at concrete inputs *)

Section MoreScenarios.

Import GeminiService.

Local Open Scope Z_scope.

(** A text chat three minutes and more into its session. *)
Definition chat_after_three_minutes : State :=
set_sessionStartTime (Some 1700000000000) (set_chatRef true (initial 1700000200000)).

Definition chat_after_one_minute : State :=
set_sessionStartTime (Some 1700000000000) (set_chatRef true (initial 1700000060000)).

Lemma report_request_after_three_minutes :
  appState (handleSendMessage "I need my REPORT now" false 1700000200500
              chat_after_three_minutes) = ASSESSING.
Proof.
  exact (proj1 (sent_trigger_with_open_gate_starts_assessment
                  "I need my REPORT now" 1700000200500 chat_after_three_minutes
                  eq_refl eq_refl eq_refl)).
Defined.

Lemma report_request_after_one_minute :
  added chat_after_one_minute
    (handleSendMessage "I need my REPORT now" false 1700000060500 chat_after_one_minute)
  = [chat_sendMessage "I need my REPORT now"].
Proof.
  exact (proj2 (proj2 (proj2 (proj2
    (sent_text_with_closed_gate_goes_to_chat
       "I need my REPORT now" 1700000060500 chat_after_one_minute
       eq_refl eq_refl eq_refl))))).
Defined.

Definition listening_state : State :=
set_transcriptionBufferRef cleared live_state.

Lemma two_deltas_then_turnComplete :
  messages (@run frame_per_char live_state
              (inputDeliveries [("what ", 1800, 0); ("is this", 1900, 0)]
               ++ [delivery turnCompleteEvent 2000 0]) listening_state)
  = [userMessage "what is this" 2000; modelMessage "Hello!" 500].
Proof.
  exact (proj2 (@input_deltas_are_flushed_as_one_user_message frame_per_char
                  live_state [("what ", 1800, 0); ("is this", 1900, 0)] 2000 0
                  listening_state [] (modelMessage "Hello!" 500)
                  eq_refl eq_refl eq_refl eq_refl)).
Defined.

Lemma chunk_after_interruption_at_96000 :
  nextStartTimeRef
    (@onmessage frame_per_char live_state (audioChunk "AAAA") 2001 96000
       (@onmessage frame_per_char live_state interruptedEvent 2000 95000 playing_state))
  = 96000 + 4.
Proof.
  exact (proj2 (proj2 (@chunk_after_interruption_starts_on_arrival frame_per_char
                         live_state "AAAA" 2000 95000 2001 96000 playing_state
                         eq_refl eq_refl ltac:(discriminate)))).
Defined.

Lemma early_second_chunk_has_no_gap :
  scheduled (added live_state
               (@run frame_per_char live_state
                  [delivery (audioChunk "AAAA") 2000 10;
                   delivery (audioChunk "BBBBBB") 2001 12] live_state))
  = [(10, 4); (14, 6)].
Proof.
  exact (proj1 (proj2 (@second_chunk_starts_at_end_of_first_or_on_arrival
                         frame_per_char live_state "AAAA" "BBBBBB" 2000 10 2001 12
                         live_state eq_refl eq_refl eq_refl))
           ltac:(discriminate)).
Defined.

(** A live session whose timeline ends in a typed user message. *)
Definition after_typed_message : State :=
set_messages [modelMessage "Hello!" 500; userMessage "ok" 1600] live_state.

Lemma flush_after_typed_message_repeats_it :
  messages (@onmessage frame_per_char live_state turnCompleteEvent 2000 0
              after_typed_message)
  = [modelMessage "Hello!" 500; userMessage "ok" 1600;
     userMessage "what is this" 2000; userMessage "ok" 1600].
Proof.
  exact (proj2 (@turnComplete_flush_without_trailing_model_message frame_per_char
                  live_state 2000 0 after_typed_message eq_refl)
           [modelMessage "Hello!" 500] (userMessage "ok" 1600) eq_refl eq_refl).
Defined.

(** A live state ten minutes into its session, with a request for the
    report in the user's buffer; [live_state] is the render that created
    the callback, before any session start. *)
Definition asking_for_report : State :=
set_transcriptionBufferRef {| buf_user := "my report please"; buf_model := "" |}
  (set_sessionStartTime (Some 1000) (set_liveSessionRef true
     (set_currentTime 601000 live_state))).

Lemma spoken_request_is_not_honoured_by_a_stale_gate :
  canRequestAssessment asking_for_report = true
  /\ appState (@onmessage frame_per_char live_state turnCompleteEvent 601000 0
                 asking_for_report) = CHATTING.
Proof.
  split; [reflexivity |].
  exact (proj1 (@live_trigger_uses_the_gate_of_its_render frame_per_char
                  live_state turnCompleteEvent 601000 0 asking_for_report eq_refl)).
Defined.

Lemma spoken_request_with_open_gate :
  appState (@onmessage frame_per_char asking_for_report turnCompleteEvent 601000 0
              asking_for_report) = ASSESSING.
Proof.
  exact (proj1 (@spoken_trigger_stops_session_and_starts_assessment frame_per_char
                  asking_for_report 601000 0 asking_for_report eq_refl eq_refl)).
Defined.

Definition landing : Component :=
{| state := initial 1000; isSessionActive := false |}.

Lemma voice_from_landing_ignores_spoken_request :
  appState (@onmessage frame_per_char (state landing) turnCompleteEvent 601000 0
              asking_for_report) = CHATTING.
Proof.
  exact (proj1 (proj2 (@voice_started_from_landing_never_triggers frame_per_char
                         1000 landing turnCompleteEvent 601000 0 asking_for_report
                         eq_refl eq_refl))).
Defined.

Definition audio_response (d : string) : GenerateContentResponse :=
{| text := None;
   candidates := Some [ {| content := Some {| parts := Some
                             [ {| inlineData := Some {| data := Some d |} |} ] |} |} ] |}.

Lemma speech_payload_is_read :
  generateSpeech (always (audio_response "UklGRg==")) "Your report is ready."
  = Resolved (Some "UklGRg==").
Proof.
  apply (proj1 (@readout_comes_from_first_part_of_first_candidate
                  (always (audio_response "UklGRg==")) "Your report is ready."
                  (audio_response "UklGRg==") live_state eq_refl)).
  now eexists _, _, _, _, _, _.
Defined.

Lemma stop_before_open_keeps_loading :
  isLoading (state (startLiveSession 1200 (startLiveSession 1100 landing))) = true.
Proof.
  exact (proj1 (proj2 (voice_stopped_before_open_stays_loading 1100 1200 landing
                         eq_refl))).
Defined.

(** Tables for the selection scenario. *)
Definition sample_scenarios : list Scenario :=
[ {| scenario_id := "general"; scenario_name := "Everyday" |};
  {| scenario_id := "public"; scenario_name := "Public Speaking" |} ].

Example choosing_public_speaking :
  handleScenarioChange sample_scenarios ["Travel"; "Food"] ["Keynote"; "Toast"] ["Feedback"]
    "public" {| selectedScenario := {| scenario_id := "general"; scenario_name := "Everyday" |};
                selectedTopic := Some "Food" |}
  = {| selectedScenario := {| scenario_id := "public"; scenario_name := "Public Speaking" |};
       selectedTopic := Some "Keynote" |}.
Proof. reflexivity. Qed.

(** A response whose summary is an object with a [toString] member of its
    own: the text is valid JSON and [generateAssessment] returns its value;
    the value is stored as the report, building the readout text throws,
    and the coordinator ends in [CHATTING] with the failure notice. *)
Definition unconvertible_summary : string :=
"{" ++ dq ++ "summary" ++ dq ++ ":{" ++ dq ++ "toString" ++ dq ++ ":null}}".

Example report_with_unconvertible_summary :
  let v := Json.JObject [(Json.units "summary",
                          Json.JObject [(Json.units "toString", Json.JNull)])] in
  let s' := handleTriggerAssessment_run []
              (generateAssessment (always (text_response unconvertible_summary)) [])
              None live_state in
  generateAssessment (always (text_response unconvertible_summary)) [] = Resolved v
  /\ appState s' = CHATTING /\ report s' = Some v /\ isLoading s' = false
  /\ added live_state s' = [call_generateAssessment [];
                             console_error "Assessment error:";
                             alert "Assessment synthesis failed."].
Proof. vm_compute. repeat split. Qed.

(** A summary that is a list of strings converts (by [join]). *)
Example summary_of_strings_converts :
  toString_throws (Json.JArray [Json.JString (Json.units "Good"); Json.JNull;
                                Json.JObject []]) = false
  /\ toString_throws (Json.JArray [Json.JObject [(Json.units "toString", Json.JNull)]])
     = true.
Proof. split; reflexivity. Qed.

(** The last delta of a turn delivered in one message with
    [turnComplete]: the buffers are cleared before React runs the update
    of the timeline, which finds the model buffer empty. *)
Definition last_delta_and_turnComplete : LiveServerMessage :=
{| audio := None; inputTranscription := None; outputTranscription := Some " there";
   turnComplete := true; interrupted := false |}.

Example last_delta_with_turnComplete_empties_the_message :
  messages (@onmessage frame_per_char live_state last_delta_and_turnComplete 2000 0
              (set_messages [modelMessage "Hi" 1500]
                 (set_transcriptionBufferRef {| buf_user := ""; buf_model := "Hi" |}
                    live_state)))
  = [modelMessage "" 1500].
Proof. reflexivity. Qed.

End MoreScenarios.
